(** * CAN brake actuator driver (STM32): shallow embedding and properties

    The development follows the three C translation units of the firmware:

    - [Can]        : can.c, the two ring buffers and the outbound drain;
    - [Brake]      : left_brake.c, the actuator state machine;
    - [Controller] : controller.c, heartbeat, watchdog and health.

    Machine integers are [Z] with the wrap-around of their C type written
    out ([uint8_t] modulo 256, [uint16_t] modulo 65536, [uint32_t] modulo
    2^32).  File-scope [static] variables become record fields, and every
    function takes the record and returns the updated one.  Values read
    from the hardware abstraction layer (the millisecond tick, the ADC
    conversion, the result of a hardware send) are explicit arguments. *)

From Stdlib Require Import ZArith Lia Bool.
From stdpp Require Import base list.

Open Scope Z_scope.

(** ** Fixed-width integers *)

Definition u8 (x : Z) : Z := x mod 256.
Definition u16 (x : Z) : Z := x mod 65536.
Definition u32 (x : Z) : Z := x mod 4294967296.

(** ** can.c: ring buffers and the outbound drain *)

Module Can.

Definition CAN_RX_BUFFER_SIZE : Z := 8.
Definition CAN_TX_BUFFER_SIZE : Z := 8.

(** [CAN_Message_t] of can.h. *)
Record CAN_Message_t := mkMsg {
  id : Z;               (* uint32_t *)
  data : list Z;        (* uint8_t data[8] *)
  len : Z;              (* uint8_t *)
  is_extended : bool
}.

Definition zero_msg : CAN_Message_t :=
  mkMsg 0 (replicate 8 0) 0 false.

(** [CAN_RingBuffer_t]: eight slots and three [uint8_t] indices. *)
Record CAN_RingBuffer_t := mkRing {
  buffer : list CAN_Message_t;
  head : Z;
  tail : Z;
  count : Z
}.

(** A buffer after [memset(&b, 0, sizeof b)], as [CAN_Driver_Init] and the
    static initialiser leave it. *)
Definition ring_init : CAN_RingBuffer_t :=
  mkRing (replicate 8 zero_msg) 0 0 0.

Definition RingBuffer_IsFull (b : CAN_RingBuffer_t) (buffer_size : Z) : bool :=
  buffer_size <=? count b.

Definition RingBuffer_IsEmpty (b : CAN_RingBuffer_t) : bool :=
  count b =? 0.


(** [RingBuffer_Put].  The slot write uses stdpp's list insert, which does
    nothing for an index outside the list; in C that would be a write past
    the array, and [ring_inv] below shows the index stays inside. *)
Definition RingBuffer_Put (b : CAN_RingBuffer_t) (msg : CAN_Message_t)
    (buffer_size : Z) : bool * CAN_RingBuffer_t :=
  if RingBuffer_IsFull b buffer_size then (false, b)
  else
    (true,
     mkRing (<[Z.to_nat (head b) := msg]> (buffer b))
            (u8 ((head b + 1) mod buffer_size))
            (tail b)
            (u8 (count b + 1))).

(** [RingBuffer_Get] returns the success flag, the message copied out (the
    caller's [*msg] is left alone on failure, so [None]) and the buffer. *)
Definition RingBuffer_Get (b : CAN_RingBuffer_t) (buffer_size : Z)
    : option CAN_Message_t * CAN_RingBuffer_t :=
  if RingBuffer_IsEmpty b then (None, b)
  else
    (Some (default zero_msg (buffer b !! Z.to_nat (tail b))),
     mkRing (buffer b)
            (head b)
            (u8 ((tail b + 1) mod buffer_size))
            (u8 (count b - 1))).

(** The driver owns two buffers. *)
Record Driver := mkDriver {
  can_rx_buffer : CAN_RingBuffer_t;
  can_tx_buffer : CAN_RingBuffer_t
}.

Definition CAN_Driver_Init : Driver := mkDriver ring_init ring_init.

(** [memcpy(msg.data, data, len)] followed by zeroing the unused bytes. *)
Definition copy_payload (payload : list Z) (n : Z) : list Z :=
  take (Z.to_nat n) payload ++ replicate (8 - Z.to_nat n)%nat 0.

(** [CAN_Driver_Send]; the caller's [data] pointer is [None] for NULL. *)
Definition CAN_Driver_Send (d : Driver) (msg_id : Z) (payload : option (list Z))
    (n : Z) : bool * Driver :=
  match payload with
  | None => (false, d)
  | Some bytes =>
      if 8 <? n then (false, d)
      else
        let msg := mkMsg msg_id (copy_payload bytes n) n true in
        let '(ok, tx) := RingBuffer_Put (can_tx_buffer d) msg CAN_TX_BUFFER_SIZE in
        (ok, mkDriver (can_rx_buffer d) tx)
  end.

(** The hardware TX FIFO is seen through the results of successive calls of
    [HAL_FDCAN_AddMessageToTxFifoQ]: [true] is [HAL_OK].  An exhausted list
    stands for a FIFO that stays full. *)
Definition Hal := list bool.

(** Result of a drain: the TX buffer, the hardware results not yet
    consumed and the frames the hardware accepted, oldest first. *)
Record Drain := mkDrain {
  drain_tx : CAN_RingBuffer_t;
  drain_hal : Hal;
  drain_bus : list CAN_Message_t
}.

(** The [while] loop of [CAN_Driver_Transmit], with a bound on the number
    of iterations; [None] means the bound was too small. *)
Fixpoint Transmit_loop (fuel : nat) (tx : CAN_RingBuffer_t) (hal : Hal)
    (bus : list CAN_Message_t) : option Drain :=
  match fuel with
  | O => None
  | S fuel' =>
      match RingBuffer_Get tx CAN_TX_BUFFER_SIZE with
      | (None, tx') => Some (mkDrain tx' hal bus)
      | (Some msg, tx') =>
          match hal with
          | true :: hal' => Transmit_loop fuel' tx' hal' (bus ++ [msg])
          | false :: hal' =>
              Some (mkDrain (snd (RingBuffer_Put tx' msg CAN_TX_BUFFER_SIZE)) hal' bus)
          | [] =>
              Some (mkDrain (snd (RingBuffer_Put tx' msg CAN_TX_BUFFER_SIZE)) [] bus)
          end
      end
  end.

(** [count] is a [uint8_t], so 256 successful sends empty any buffer. *)
Definition CAN_Driver_Transmit (tx : CAN_RingBuffer_t) (hal : Hal) : option Drain :=
  Transmit_loop 257 tx hal [].

Definition CAN_Driver_Get (d : Driver) : option CAN_Message_t * Driver :=
  let '(m, rx) := RingBuffer_Get (can_rx_buffer d) CAN_RX_BUFFER_SIZE in
  (m, mkDriver rx (can_tx_buffer d)).

Definition CAN_Driver_HasMessage (d : Driver) : bool := negb (RingBuffer_IsEmpty (can_rx_buffer d)).

Definition ring_clear (b : CAN_RingBuffer_t) : CAN_RingBuffer_t :=
  mkRing (buffer b) 0 0 0.

Definition CAN_Driver_ClearTxBuffer (d : Driver) : Driver :=
  mkDriver (can_rx_buffer d) (ring_clear (can_tx_buffer d)).

Definition CAN_Driver_ClearRxBuffer (d : Driver) : Driver :=
  mkDriver (ring_clear (can_rx_buffer d)) (can_tx_buffer d).

(** [CAN_Driver_RxCallback], given the frame the peripheral hands over
    ([None] when [HAL_FDCAN_GetRxMessage] fails); [dlc] is the header's
    [DataLength >> 16] before the cast. *)
Definition CAN_Driver_RxCallback (d : Driver)
    (frame : option (Z * bool * Z * list Z)) : Driver :=
  match frame with
  | None => d
  | Some (ident, ext, dlc, bytes) =>
      let n := if 8 <? u8 dlc then 8 else u8 dlc in
      let msg := mkMsg ident (copy_payload bytes n) n ext in
      mkDriver (snd (RingBuffer_Put (can_rx_buffer d) msg CAN_RX_BUFFER_SIZE))
               (can_tx_buffer d)
  end.

(** Sequences of operations on one buffer of capacity 8. *)
Inductive ring_op :=
  | OpPut (msg : CAN_Message_t)
  | OpGet.

Definition ring_step (b : CAN_RingBuffer_t) (o : ring_op) : CAN_RingBuffer_t :=
  match o with
  | OpPut msg => snd (RingBuffer_Put b msg 8)
  | OpGet => snd (RingBuffer_Get b 8)
  end.

Definition ring_run (ops : list ring_op) (b : CAN_RingBuffer_t) : CAN_RingBuffer_t :=
  foldl ring_step b ops.

(** The data-model invariant of the bounded queue. *)
Definition ring_inv (b : CAN_RingBuffer_t) : Prop :=
  0 <= count b <= 8 /\ 0 <= head b < 8 /\ 0 <= tail b < 8 /\
  length (buffer b) = 8%nat /\
  head b = (tail b + count b) mod 8.

Definition driver_inv (d : Driver) : Prop :=
  ring_inv (can_rx_buffer d) /\ ring_inv (can_tx_buffer d).

(** The queued messages, oldest first. *)
Fixpoint ring_slots (slots : list CAN_Message_t) (from : Z) (n : nat)
    : list CAN_Message_t :=
  match n with
  | O => []
  | S n' => default zero_msg (slots !! Z.to_nat from)
            :: ring_slots slots ((from + 1) mod 8) n'
  end.

Definition ring_contents (b : CAN_RingBuffer_t) : list CAN_Message_t :=
  ring_slots (buffer b) (tail b) (Z.to_nat (count b)).

End Can.

(** ** left_brake.c: the actuator state machine *)

Module Brake.

Definition POSITION_RELEASED : Z := 200.
Definition POSITION_PUSHED : Z := 3800.
Definition POSITION_TOLERANCE : Z := 100.
Definition MOTOR_DUTY_PUSH : Z := 80.
Definition MOTOR_DUTY_RELEASE : Z := 80.
Definition ESTIMATED_PUSH_TIME_MS : Z := 2000.
Definition ESTIMATED_RELEASE_TIME_MS : Z := 2000.
Definition POSITION_TIMEOUT_MS : Z := 5000.
Definition MIN_VALID_POSITION : Z := 50.
Definition MAX_VALID_POSITION : Z := 4000.
Definition MAX_POSITION_ERRORS : Z := 10.

(** Modelled from the spec: automate.h, the generated protocol header, is
    not among the sources.  The command byte is "brake_state (0=release,
    1=push)" in the interface table of the spec. *)
Definition AUTOMATE_LEFT_BRAKE_CMD_BRAKE_STATE_RELEASE_CHOICE : Z := 0.
Definition AUTOMATE_LEFT_BRAKE_CMD_BRAKE_STATE_PUSH_CHOICE : Z := 1.

(** [BrakeState_t] of common.h. *)
Inductive BrakeState_t :=
  | BRAKE_STATE_RELEASED
  | BRAKE_STATE_RELEASING
  | BRAKE_STATE_PUSHED
  | BRAKE_STATE_PUSHING
  | BRAKE_STATE_STOPPED.

Definition BrakeState_eqb (a b : BrakeState_t) : bool :=
  match a, b with
  | BRAKE_STATE_RELEASED, BRAKE_STATE_RELEASED
  | BRAKE_STATE_RELEASING, BRAKE_STATE_RELEASING
  | BRAKE_STATE_PUSHED, BRAKE_STATE_PUSHED
  | BRAKE_STATE_PUSHING, BRAKE_STATE_PUSHING
  | BRAKE_STATE_STOPPED, BRAKE_STATE_STOPPED => true
  | _, _ => false
  end.

(** The motor driver pins: the INH level and the PWM duty in percent. *)
Record Motor := mkMotor {
  motor_inh : bool;
  motor_duty : Z
}.

(** The module's variables: the three [app_state] fields it touches and
    its four statics, with the motor outputs. *)
Record Brake := mkBrake {
  state : BrakeState_t;                 (* app_state.state *)
  app_current_position : Z;             (* app_state.current_position *)
  target_position : Z;                  (* app_state.target_position *)
  current_position : Z;                 (* static uint16_t *)
  operation_start_tick : Z;             (* static uint32_t *)
  estimated_operation_time_ms : Z;      (* static uint32_t *)
  position_error_count : Z;             (* static uint8_t *)
  motor : Motor
}.

Definition set_state (v : BrakeState_t) (b : Brake) : Brake :=
  mkBrake v (app_current_position b) (target_position b) (current_position b)
          (operation_start_tick b) (estimated_operation_time_ms b)
          (position_error_count b) (motor b).

Definition set_app_current_position (v : Z) (b : Brake) : Brake :=
  mkBrake (state b) v (target_position b) (current_position b)
          (operation_start_tick b) (estimated_operation_time_ms b)
          (position_error_count b) (motor b).

Definition set_target_position (v : Z) (b : Brake) : Brake :=
  mkBrake (state b) (app_current_position b) v (current_position b)
          (operation_start_tick b) (estimated_operation_time_ms b)
          (position_error_count b) (motor b).

Definition set_current_position (v : Z) (b : Brake) : Brake :=
  mkBrake (state b) (app_current_position b) (target_position b) v
          (operation_start_tick b) (estimated_operation_time_ms b)
          (position_error_count b) (motor b).

Definition set_operation_start_tick (v : Z) (b : Brake) : Brake :=
  mkBrake (state b) (app_current_position b) (target_position b)
          (current_position b) v (estimated_operation_time_ms b)
          (position_error_count b) (motor b).

Definition set_estimated_operation_time_ms (v : Z) (b : Brake) : Brake :=
  mkBrake (state b) (app_current_position b) (target_position b)
          (current_position b) (operation_start_tick b) v
          (position_error_count b) (motor b).

Definition set_position_error_count (v : Z) (b : Brake) : Brake :=
  mkBrake (state b) (app_current_position b) (target_position b)
          (current_position b) (operation_start_tick b)
          (estimated_operation_time_ms b) v (motor b).

Definition set_motor (v : Motor) (b : Brake) : Brake :=
  mkBrake (state b) (app_current_position b) (target_position b)
          (current_position b) (operation_start_tick b)
          (estimated_operation_time_ms b) (position_error_count b) v.

Definition Motor_SetDirection (push : bool) (b : Brake) : Brake :=
  set_motor (mkMotor push (motor_duty (motor b))) b.

Definition Motor_SetPWM (duty_percent : Z) (b : Brake) : Brake :=
  let duty := if 100 <? duty_percent then 100 else duty_percent in
  set_motor (mkMotor (motor_inh (motor b)) duty) b.

Definition Motor_Stop (b : Brake) : Brake :=
  let b := Motor_SetPWM 0 b in
  set_motor (mkMotor false (motor_duty (motor b))) b.

(** [ADC_ReadPosition]: [Some v] is a finished conversion with register
    value [v], [None] a conversion timeout, which returns the last known
    position. *)
Definition ADC_ReadPosition (b : Brake) (adc : option Z) : Z :=
  match adc with
  | Some v => u16 v
  | None => current_position b
  end.

Definition IsPositionValid (position : Z) : bool :=
  (MIN_VALID_POSITION <=? position) && (position <=? MAX_VALID_POSITION).

(** [HAL_GetTick() - operation_start_tick] in [uint32_t]. *)
Definition elapsed_since (b : Brake) (tick : Z) : Z :=
  u32 (tick - operation_start_tick b).

(** [UpdateOperationEstimate].  The distances are [int32_t]; the quotient
    and the product are taken in [uint32_t], to which C converts the
    signed operand. *)
Definition UpdateOperationEstimate (b : Brake) (tick : Z) : Brake :=
  let elapsed := elapsed_since b tick in
  let bounds :=
    match state b with
    | BRAKE_STATE_PUSHING => Some (POSITION_RELEASED, POSITION_PUSHED)
    | BRAKE_STATE_RELEASING => Some (POSITION_PUSHED, POSITION_RELEASED)
    | _ => None
    end in
  match bounds with
  | None => set_estimated_operation_time_ms 0 b
  | Some (start_pos, target_pos) =>
      let distance_total := target_pos - start_pos in
      let distance_remaining := target_pos - current_position b in
      if distance_total =? 0 then set_estimated_operation_time_ms 0 b
      else if 0 <? elapsed then
        let distance_traveled := distance_total - distance_remaining in
        if 0 <? distance_traveled then
          let time_per_unit := elapsed / u32 distance_traveled in
          set_estimated_operation_time_ms
            (u32 (time_per_unit * u32 distance_remaining)) b
        else
          set_estimated_operation_time_ms
            (match state b with
             | BRAKE_STATE_PUSHING => ESTIMATED_PUSH_TIME_MS
             | _ => ESTIMATED_RELEASE_TIME_MS
             end) b
      else b
  end.

(** The classification shared by [Brake_Init] and [Brake_ClearError]. *)
Definition classify_position (b : Brake) : Brake :=
  if current_position b <=? POSITION_RELEASED + POSITION_TOLERANCE then
    set_target_position POSITION_RELEASED (set_state BRAKE_STATE_RELEASED b)
  else if POSITION_PUSHED - POSITION_TOLERANCE <=? current_position b then
    set_target_position POSITION_PUSHED (set_state BRAKE_STATE_PUSHED b)
  else
    set_target_position POSITION_RELEASED (set_state BRAKE_STATE_RELEASED b).

(** The variables as the C start-up code leaves them. *)
Definition brake_boot : Brake :=
  mkBrake BRAKE_STATE_RELEASED 0 0 0 0 ESTIMATED_PUSH_TIME_MS 0 (mkMotor false 0).

Definition Brake_Init (b : Brake) (adc : option Z) : Brake :=
  let b := set_current_position 0 b in
  let b := set_operation_start_tick 0 b in
  let b := set_estimated_operation_time_ms ESTIMATED_PUSH_TIME_MS b in
  let b := set_position_error_count 0 b in
  let b := Motor_Stop b in
  let b := set_current_position (ADC_ReadPosition b adc) b in
  classify_position b.

Definition Brake_UpdatePosition (b : Brake) (adc : option Z) : Brake :=
  let new_position := ADC_ReadPosition b adc in
  if IsPositionValid new_position then
    set_position_error_count 0
      (set_app_current_position new_position
        (set_current_position new_position b))
  else
    let b := set_position_error_count (u8 (position_error_count b + 1)) b in
    if MAX_POSITION_ERRORS <=? position_error_count b then
      Motor_Stop (set_state BRAKE_STATE_STOPPED b)
    else b.

Definition Brake_ProcessCommand (b : Brake) (brake_state : Z) (tick : Z) : Brake :=
  if BrakeState_eqb (state b) BRAKE_STATE_STOPPED
     && (MAX_POSITION_ERRORS <=? position_error_count b) then b
  else if brake_state =? AUTOMATE_LEFT_BRAKE_CMD_BRAKE_STATE_PUSH_CHOICE then
    if negb (BrakeState_eqb (state b) BRAKE_STATE_PUSHING)
       && negb (BrakeState_eqb (state b) BRAKE_STATE_PUSHED) then
      set_estimated_operation_time_ms ESTIMATED_PUSH_TIME_MS
        (set_operation_start_tick (u32 tick)
          (set_target_position POSITION_PUSHED
            (set_state BRAKE_STATE_PUSHING b)))
    else b
  else if brake_state =? AUTOMATE_LEFT_BRAKE_CMD_BRAKE_STATE_RELEASE_CHOICE then
    if negb (BrakeState_eqb (state b) BRAKE_STATE_RELEASING)
       && negb (BrakeState_eqb (state b) BRAKE_STATE_RELEASED) then
      set_estimated_operation_time_ms ESTIMATED_RELEASE_TIME_MS
        (set_operation_start_tick (u32 tick)
          (set_target_position POSITION_RELEASED
            (set_state BRAKE_STATE_RELEASING b)))
    else b
  else b.

(** [Brake_Update]; the two reads of [HAL_GetTick] in one call (here and
    in [UpdateOperationEstimate]) see the same tick. *)
Definition Brake_Update (b : Brake) (tick : Z) : Brake :=
  let pos := current_position b in
  if (BrakeState_eqb (state b) BRAKE_STATE_PUSHING
      || BrakeState_eqb (state b) BRAKE_STATE_RELEASING)
     && (POSITION_TIMEOUT_MS <? elapsed_since b tick) then
    Motor_Stop (set_state BRAKE_STATE_STOPPED b)
  else
    match state b with
    | BRAKE_STATE_PUSHING =>
        let b := UpdateOperationEstimate b tick in
        if POSITION_PUSHED - POSITION_TOLERANCE <=? pos then
          Motor_Stop (set_state BRAKE_STATE_PUSHED b)
        else Motor_SetPWM MOTOR_DUTY_PUSH (Motor_SetDirection true b)
    | BRAKE_STATE_RELEASING =>
        let b := UpdateOperationEstimate b tick in
        if pos <=? POSITION_RELEASED + POSITION_TOLERANCE then
          Motor_Stop (set_state BRAKE_STATE_RELEASED b)
        else Motor_SetPWM MOTOR_DUTY_RELEASE (Motor_SetDirection false b)
    | BRAKE_STATE_PUSHED | BRAKE_STATE_RELEASED =>
        set_estimated_operation_time_ms 0 (Motor_Stop b)
    | BRAKE_STATE_STOPPED =>
        set_estimated_operation_time_ms 0 (Motor_Stop b)
    end.

Definition Brake_GetTimeToEnd (b : Brake) (tick : Z) : Z :=
  if BrakeState_eqb (state b) BRAKE_STATE_PUSHING
     || BrakeState_eqb (state b) BRAKE_STATE_RELEASING then
    let elapsed := elapsed_since b tick in
    if elapsed <? estimated_operation_time_ms b then
      u16 (estimated_operation_time_ms b - elapsed)
    else 0
  else 0.

Definition Brake_GetPosition (b : Brake) : Z := current_position b.

Definition Brake_EmergencyStop (b : Brake) : Brake :=
  set_state BRAKE_STATE_STOPPED (Motor_Stop b).

Definition Brake_ClearError (b : Brake) (adc : option Z) : bool * Brake :=
  let b := set_position_error_count 0 b in
  let b := Brake_UpdatePosition b adc in
  if IsPositionValid (current_position b) then (true, classify_position b)
  else (false, b).

Definition Brake_HasError (b : Brake) : bool :=
  MAX_POSITION_ERRORS <=? position_error_count b.

Definition Brake_GetPositionPercent (b : Brake) : Z :=
  if current_position b <=? POSITION_RELEASED then 0
  else if POSITION_PUSHED <=? current_position b then 100
  else
    let range := POSITION_PUSHED - POSITION_RELEASED in
    let offset := current_position b - POSITION_RELEASED in
    u8 ((offset * 100) / range).

(** What the main loop and the dispatcher can do to the actuator. *)
Inductive brake_event :=
  | EvUpdatePosition (adc : option Z)
  | EvCommand (brake_state : Z) (tick : Z)
  | EvUpdate (tick : Z)
  | EvEmergencyStop
  | EvClearError (adc : option Z).

Definition brake_step (b : Brake) (e : brake_event) : Brake :=
  match e with
  | EvUpdatePosition adc => Brake_UpdatePosition b adc
  | EvCommand c tick => Brake_ProcessCommand b c tick
  | EvUpdate tick => Brake_Update b tick
  | EvEmergencyStop => Brake_EmergencyStop b
  | EvClearError adc => snd (Brake_ClearError b adc)
  end.

Definition brake_run (es : list brake_event) (b : Brake) : Brake :=
  foldl brake_step b es.

(** States the firmware can be in: [Brake_Init] at start-up, then any
    sequence of events. *)
Inductive reachable : Brake -> Prop :=
  | reach_init adc : reachable (Brake_Init brake_boot adc)
  | reach_step b e : reachable b -> reachable (brake_step b e).

End Brake.

(** ** controller.c: heartbeat, watchdog and health *)

Module Controller.

Import Can Brake.

Definition NODE_ID_MCU : Z := 240.   (* 0xF0 *)
Definition NODE_ID_PC : Z := 16.     (* 0x10 *)
Definition STATUS_LED_BLINK_PERIOD_MS : Z := 500.
Definition WATCHDOG_TIMEOUT_MS : Z := 200.

(** Modelled from the spec: automate.h and automate.c, the generated
    protocol codec, are not among the sources.  Frame identifiers, periods
    and byte layouts are those of the interface table of the spec; the
    health codes are the six listed in controller.h for
    [Controller_SetHealth], the "health (0-5)" byte of the table. *)
Definition AUTOMATE_HEART_BEAT_MSG_FRAME_ID : Z := 2566851840.   (* 0x98FF0D00 *)
Definition AUTOMATE_LEFT_BRAKE_CMD_FRAME_ID : Z := 2566851849.   (* 0x98FF0D09 *)
Definition AUTOMATE_LEFT_BRAKE_MSG_FRAME_ID : Z := 2566851850.   (* 0x98FF0D0A *)
Definition AUTOMATE_HEART_BEAT_MSG_CYCLE_TIME_MS : Z := 50.
Definition AUTOMATE_LEFT_BRAKE_CMD_CYCLE_TIME_MS : Z := 100.
Definition AUTOMATE_HEART_BEAT_MSG_HEALTH_OFF_CHOICE : Z := 0.
Definition AUTOMATE_HEART_BEAT_MSG_HEALTH_ON_CHOICE : Z := 1.
Definition AUTOMATE_HEART_BEAT_MSG_HEALTH_INIT_CHOICE : Z := 2.
Definition AUTOMATE_HEART_BEAT_MSG_HEALTH_WARNING_CHOICE : Z := 3.
Definition AUTOMATE_HEART_BEAT_MSG_HEALTH_FAILURE_CHOICE : Z := 4.
Definition AUTOMATE_HEART_BEAT_MSG_HEALTH_CRITICAL_FAILURE_CHOICE : Z := 5.

Definition HEARTBEAT_INTERVAL_MS : Z := AUTOMATE_HEART_BEAT_MSG_CYCLE_TIME_MS.
Definition TELEMETRY_INTERVAL_MS : Z := AUTOMATE_LEFT_BRAKE_CMD_CYCLE_TIME_MS.

Record automate_heart_beat_msg_t := mkHeartBeat {
  hb_node_id : Z;       (* uint8_t *)
  hb_msg_count : Z;     (* uint32_t *)
  hb_health : Z;        (* uint8_t *)
  hb_stamp : Z          (* uint16_t *)
}.

Record automate_left_brake_cmd_t := mkBrakeCmd {
  cmd_msg_id : Z;
  cmd_stamp : Z;
  cmd_brake_state : Z
}.

Record automate_left_brake_msg_t := mkBrakeMsg {
  tm_msg_id : Z;
  tm_stamp : Z;
  tm_brake_releasing : Z;
  tm_brake_released : Z;
  tm_brake_pushing : Z;
  tm_brake_pushed : Z;
  tm_time_to_end_operation : Z
}.

Definition byte_at (bytes : list Z) (i : nat) : Z := default 0 (bytes !! i).

(** Modelled from the spec: the codec's range checks.  The health byte is
    valid from 0 to 5, the command byte for 0 and 1 ("other values invalid
    and ignored"). *)
Definition automate_heart_beat_msg_health_is_in_range (value : Z) : bool :=
  value <=? 5.

Definition automate_left_brake_cmd_brake_state_is_in_range (value : Z) : bool :=
  value <=? 1.

(** Modelled from the spec: heartbeat layout "byte0 origin_id; bytes1-4
    counter (u32); byte5 health; bytes6-7 timestamp (u16)", little-endian.
    Packing returns the frame length, or a negative code when the
    destination is shorter than the frame. *)
Definition automate_heart_beat_msg_pack (m : automate_heart_beat_msg_t)
    (size : Z) : Z * list Z :=
  if size <? 8 then (-22, replicate 8 0)
  else
    (8, [ u8 (hb_node_id m);
          u8 (hb_msg_count m);
          u8 (hb_msg_count m / 256);
          u8 (hb_msg_count m / 65536);
          u8 (hb_msg_count m / 16777216);
          u8 (hb_health m);
          u8 (hb_stamp m);
          u8 (hb_stamp m / 256) ]).

Definition automate_heart_beat_msg_unpack (bytes : list Z) (size : Z)
    : option automate_heart_beat_msg_t :=
  if size <? 8 then None
  else
    Some (mkHeartBeat
            (byte_at bytes 0)
            (byte_at bytes 1 + 256 * byte_at bytes 2
             + 65536 * byte_at bytes 3 + 16777216 * byte_at bytes 4)
            (byte_at bytes 5)
            (byte_at bytes 6 + 256 * byte_at bytes 7)).

(** Modelled from the spec: command layout "byte0 msg_id; bytes1-2
    timestamp (u16); byte3 padding; byte4 brake_state". *)
Definition automate_left_brake_cmd_unpack (bytes : list Z) (size : Z)
    : option automate_left_brake_cmd_t :=
  if size <? 8 then None
  else
    Some (mkBrakeCmd
            (byte_at bytes 0)
            (byte_at bytes 1 + 256 * byte_at bytes 2)
            (byte_at bytes 4)).

(** Modelled from the spec: telemetry layout "byte0 msg_id; bytes1-2
    timestamp (u16); byte3 bitflags (bit0 releasing, bit1 released, bit2
    pushing, bit3 pushed); bytes4-5 padding; bytes6-7 time_to_end (u16)". *)
Definition automate_left_brake_msg_pack (m : automate_left_brake_msg_t)
    (size : Z) : Z * list Z :=
  if size <? 8 then (-22, replicate 8 0)
  else
    (8, [ u8 (tm_msg_id m);
          u8 (tm_stamp m);
          u8 (tm_stamp m / 256);
          (tm_brake_releasing m) mod 2 + 2 * ((tm_brake_released m) mod 2)
          + 4 * ((tm_brake_pushing m) mod 2) + 8 * ((tm_brake_pushed m) mod 2);
          0; 0;
          u8 (tm_time_to_end_operation m);
          u8 (tm_time_to_end_operation m / 256) ]).

(** The file-scope variables of controller.c. *)
Record Controller := mkController {
  node_id : Z;                      (* uint8_t *)
  heartbeat_msg_count : Z;          (* uint32_t *)
  node_health : Z;                  (* uint8_t *)
  last_heartbeat_tick : Z;
  last_telemetry_tick : Z;
  last_pc_heartbeat_tick : Z;
  last_led_toggle_tick : Z;
  telemetry_msg_id : Z;             (* uint8_t *)
  led_state : bool;
  led_pin : bool;                   (* level written to STATUS_LED *)
  pc_heartbeat_msg_count : Z;
  pc_heartbeat_received : bool
}.

Definition set_node_id (v : Z) (c : Controller) : Controller :=
  mkController v (heartbeat_msg_count c) (node_health c) (last_heartbeat_tick c)
    (last_telemetry_tick c) (last_pc_heartbeat_tick c) (last_led_toggle_tick c)
    (telemetry_msg_id c) (led_state c) (led_pin c) (pc_heartbeat_msg_count c)
    (pc_heartbeat_received c).

Definition set_heartbeat_msg_count (v : Z) (c : Controller) : Controller :=
  mkController (node_id c) v (node_health c) (last_heartbeat_tick c)
    (last_telemetry_tick c) (last_pc_heartbeat_tick c) (last_led_toggle_tick c)
    (telemetry_msg_id c) (led_state c) (led_pin c) (pc_heartbeat_msg_count c)
    (pc_heartbeat_received c).

Definition set_node_health (v : Z) (c : Controller) : Controller :=
  mkController (node_id c) (heartbeat_msg_count c) v (last_heartbeat_tick c)
    (last_telemetry_tick c) (last_pc_heartbeat_tick c) (last_led_toggle_tick c)
    (telemetry_msg_id c) (led_state c) (led_pin c) (pc_heartbeat_msg_count c)
    (pc_heartbeat_received c).

Definition set_last_heartbeat_tick (v : Z) (c : Controller) : Controller :=
  mkController (node_id c) (heartbeat_msg_count c) (node_health c) v
    (last_telemetry_tick c) (last_pc_heartbeat_tick c) (last_led_toggle_tick c)
    (telemetry_msg_id c) (led_state c) (led_pin c) (pc_heartbeat_msg_count c)
    (pc_heartbeat_received c).

Definition set_last_telemetry_tick (v : Z) (c : Controller) : Controller :=
  mkController (node_id c) (heartbeat_msg_count c) (node_health c)
    (last_heartbeat_tick c) v (last_pc_heartbeat_tick c) (last_led_toggle_tick c)
    (telemetry_msg_id c) (led_state c) (led_pin c) (pc_heartbeat_msg_count c)
    (pc_heartbeat_received c).

Definition set_telemetry_msg_id (v : Z) (c : Controller) : Controller :=
  mkController (node_id c) (heartbeat_msg_count c) (node_health c)
    (last_heartbeat_tick c) (last_telemetry_tick c) (last_pc_heartbeat_tick c)
    (last_led_toggle_tick c) v (led_state c) (led_pin c)
    (pc_heartbeat_msg_count c) (pc_heartbeat_received c).

(** The three assignments made on a heartbeat of the PC. *)
Definition set_pc_heartbeat (tick cnt : Z) (c : Controller) : Controller :=
  mkController (node_id c) (heartbeat_msg_count c) (node_health c)
    (last_heartbeat_tick c) (last_telemetry_tick c) tick
    (last_led_toggle_tick c) (telemetry_msg_id c) (led_state c) (led_pin c)
    cnt true.

Definition set_led (st pin : bool) (toggle : Z) (c : Controller) : Controller :=
  mkController (node_id c) (heartbeat_msg_count c) (node_health c)
    (last_heartbeat_tick c) (last_telemetry_tick c) (last_pc_heartbeat_tick c)
    toggle (telemetry_msg_id c) st pin (pc_heartbeat_msg_count c)
    (pc_heartbeat_received c).

(** The whole firmware state seen by the business loop. *)
Record System := mkSystem {
  ctrl : Controller;
  brake : Brake;
  can : Driver
}.

(** The structure [SendHeartbeat] fills before packing. *)
Definition heartbeat_of (c : Controller) (tick : Z) : automate_heart_beat_msg_t :=
  mkHeartBeat NODE_ID_MCU (heartbeat_msg_count c) (node_health c)
              (Z.land (u32 tick) 65535).

Definition SendHeartbeat (s : System) (tick : Z) : System :=
  let hb_msg := heartbeat_of (ctrl s) tick in
  let c := set_heartbeat_msg_count (u32 (heartbeat_msg_count (ctrl s) + 1)) (ctrl s) in
  let '(packed_len, tx_data) := automate_heart_beat_msg_pack hb_msg 8 in
  if 0 <? packed_len then
    mkSystem c (brake s)
      (snd (CAN_Driver_Send (can s) AUTOMATE_HEART_BEAT_MSG_FRAME_ID
              (Some tx_data) (u8 packed_len)))
  else mkSystem c (brake s) (can s).

Definition flag (b : bool) : Z := if b then 1 else 0.

Definition telemetry_of (c : Controller) (b : Brake) (tick : Z)
    : automate_left_brake_msg_t :=
  mkBrakeMsg (telemetry_msg_id c) (Z.land (u32 tick) 65535)
    (flag (BrakeState_eqb (Brake.state b) BRAKE_STATE_RELEASING))
    (flag (BrakeState_eqb (Brake.state b) BRAKE_STATE_RELEASED))
    (flag (BrakeState_eqb (Brake.state b) BRAKE_STATE_PUSHING))
    (flag (BrakeState_eqb (Brake.state b) BRAKE_STATE_PUSHED))
    (Brake_GetTimeToEnd b tick).

Definition SendTelemetry (s : System) (tick : Z) : System :=
  let brake_msg := telemetry_of (ctrl s) (brake s) tick in
  let c := set_telemetry_msg_id (u8 (telemetry_msg_id (ctrl s) + 1)) (ctrl s) in
  let '(packed_len, tx_data) := automate_left_brake_msg_pack brake_msg 8 in
  if 0 <? packed_len then
    mkSystem c (brake s)
      (snd (CAN_Driver_Send (can s) AUTOMATE_LEFT_BRAKE_MSG_FRAME_ID
              (Some tx_data) (u8 packed_len)))
  else mkSystem c (brake s) (can s).

(** The heartbeat case of the dispatcher, after a successful unpack. *)
Definition ProcessHeartbeat (c : Controller) (heartbeat : automate_heart_beat_msg_t)
    (tick : Z) : Controller :=
  if hb_node_id heartbeat =? NODE_ID_PC then
    set_pc_heartbeat (u32 tick) (hb_msg_count heartbeat) c
  else c.

(** The body of the [while] loop of [ProcessReceivedMessage]. *)
Definition Dispatch (s : System) (msg : CAN_Message_t) (tick : Z) : System :=
  if Can.id msg =? AUTOMATE_HEART_BEAT_MSG_FRAME_ID then
    match automate_heart_beat_msg_unpack (Can.data msg) (Can.len msg) with
    | Some heartbeat =>
        mkSystem (ProcessHeartbeat (ctrl s) heartbeat tick) (brake s) (can s)
    | None => s
    end
  else if Can.id msg =? AUTOMATE_LEFT_BRAKE_CMD_FRAME_ID then
    match automate_left_brake_cmd_unpack (Can.data msg) (Can.len msg) with
    | Some brake_cmd =>
        if automate_left_brake_cmd_brake_state_is_in_range (cmd_brake_state brake_cmd)
        then mkSystem (ctrl s)
               (Brake_ProcessCommand (brake s) (cmd_brake_state brake_cmd) tick)
               (can s)
        else s
    | None => s
    end
  else s.

Fixpoint ProcessReceivedMessage_loop (fuel : nat) (s : System) (tick : Z)
    : option System :=
  match fuel with
  | O => None
  | S fuel' =>
      match CAN_Driver_Get (can s) with
      | (None, _) => Some s
      | (Some msg, d) =>
          ProcessReceivedMessage_loop fuel'
            (Dispatch (mkSystem (ctrl s) (brake s) d) msg tick) tick
      end
  end.

Definition ProcessReceivedMessage (s : System) (tick : Z) : option System :=
  ProcessReceivedMessage_loop 257 s tick.

Definition UpdateSystemHealth (c : Controller) (b : Brake) (tick : Z) : Controller :=
  let current_tick := u32 tick in
  let c :=
    if pc_heartbeat_received c then
      let time_since_last_pc_heartbeat := u32 (current_tick - last_pc_heartbeat_tick c) in
      if WATCHDOG_TIMEOUT_MS <? time_since_last_pc_heartbeat then
        if node_health c =? AUTOMATE_HEART_BEAT_MSG_HEALTH_ON_CHOICE
        then set_node_health AUTOMATE_HEART_BEAT_MSG_HEALTH_WARNING_CHOICE c
        else c
      else
        if node_health c =? AUTOMATE_HEART_BEAT_MSG_HEALTH_WARNING_CHOICE
        then set_node_health AUTOMATE_HEART_BEAT_MSG_HEALTH_ON_CHOICE c
        else c
    else c in
  let c :=
    if (node_health c =? AUTOMATE_HEART_BEAT_MSG_HEALTH_INIT_CHOICE)
       && (1000 <? current_tick)
    then set_node_health AUTOMATE_HEART_BEAT_MSG_HEALTH_ON_CHOICE c
    else c in
  if Brake_HasError b then
    if node_health c <? AUTOMATE_HEART_BEAT_MSG_HEALTH_FAILURE_CHOICE
    then set_node_health AUTOMATE_HEART_BEAT_MSG_HEALTH_FAILURE_CHOICE c
    else c
  else c.

Definition UpdateStatusLED (c : Controller) (b : Brake) (tick : Z) : Controller :=
  let current_tick := u32 tick in
  let blink period :=
    if period <=? u32 (current_tick - last_led_toggle_tick c) then
      set_led (negb (led_state c)) (negb (led_state c)) current_tick c
    else c in
  match Brake.state b with
  | BRAKE_STATE_RELEASED => set_led false false (last_led_toggle_tick c) c
  | BRAKE_STATE_PUSHED => set_led true true (last_led_toggle_tick c) c
  | BRAKE_STATE_RELEASING | BRAKE_STATE_PUSHING => blink STATUS_LED_BLINK_PERIOD_MS
  | BRAKE_STATE_STOPPED => blink (STATUS_LED_BLINK_PERIOD_MS / 4)
  end.

Definition controller_boot : Controller :=
  mkController NODE_ID_MCU 0 AUTOMATE_HEART_BEAT_MSG_HEALTH_INIT_CHOICE
    0 0 0 0 0 false false 0 false.

Definition Controller_Init (c : Controller) (tick : Z) : Controller :=
  mkController NODE_ID_MCU 0 AUTOMATE_HEART_BEAT_MSG_HEALTH_INIT_CHOICE
    (u32 tick) (u32 tick) 0 (u32 tick) 0 false (led_pin c) 0 false.

Definition Business_Loop (s : System) (tick : Z) : option System :=
  let current_tick := u32 tick in
  match ProcessReceivedMessage s tick with
  | None => None
  | Some s =>
      let s :=
        if HEARTBEAT_INTERVAL_MS <=? u32 (current_tick - last_heartbeat_tick (ctrl s)) then
          let s := SendHeartbeat s tick in
          mkSystem (set_last_heartbeat_tick current_tick (ctrl s)) (brake s) (can s)
        else s in
      let s :=
        if TELEMETRY_INTERVAL_MS <=? u32 (current_tick - last_telemetry_tick (ctrl s)) then
          let s := SendTelemetry s tick in
          mkSystem (set_last_telemetry_tick current_tick (ctrl s)) (brake s) (can s)
        else s in
      let c := UpdateSystemHealth (ctrl s) (brake s) tick in
      let c := UpdateStatusLED c (brake s) tick in
      Some (mkSystem c (brake s) (can s))
  end.

Definition Controller_SetNodeID (c : Controller) (v : Z) : Controller :=
  set_node_id v c.

Definition Controller_GetNodeID (c : Controller) : Z := node_id c.

Definition Controller_SetHealth (c : Controller) (health : Z) : Controller :=
  if automate_heart_beat_msg_health_is_in_range health
  then set_node_health health c
  else c.

Definition Controller_GetHealth (c : Controller) : Z := node_health c.

Definition Controller_SendHeartbeatNow (s : System) (tick : Z) : System :=
  let s := SendHeartbeat s tick in
  mkSystem (set_last_heartbeat_tick (u32 tick) (ctrl s)) (brake s) (can s).

Definition Controller_SendTelemetryNow (s : System) (tick : Z) : System :=
  let s := SendTelemetry s tick in
  mkSystem (set_last_telemetry_tick (u32 tick) (ctrl s)) (brake s) (can s).

(** The four health values of the data model. *)
Definition is_health_variant (h : Z) : bool :=
  (h =? AUTOMATE_HEART_BEAT_MSG_HEALTH_INIT_CHOICE)
  || (h =? AUTOMATE_HEART_BEAT_MSG_HEALTH_ON_CHOICE)
  || (h =? AUTOMATE_HEART_BEAT_MSG_HEALTH_WARNING_CHOICE)
  || (h =? AUTOMATE_HEART_BEAT_MSG_HEALTH_FAILURE_CHOICE).

End Controller.

(** ** The estimate as the specification words it *)

Module Spec.

Import Brake.

(** Reference positions of the operation in progress: start and target. *)
Definition operation_span (b : Brake) : option (Z * Z) :=
  match state b with
  | BRAKE_STATE_PUSHING => Some (POSITION_RELEASED, POSITION_PUSHED)
  | BRAKE_STATE_RELEASING => Some (POSITION_PUSHED, POSITION_RELEASED)
  | _ => None
  end.

Definition distance_remaining (b : Brake) : Z :=
  match operation_span b with
  | Some (_, target_pos) => target_pos - current_position b
  | None => 0
  end.

Definition distance_covered (b : Brake) : Z :=
  match operation_span b with
  | Some (start_pos, target_pos) =>
      (target_pos - start_pos) - (target_pos - current_position b)
  | None => 0
  end.

(** "elapsed * distance_remaining / distance_covered", in exact integer
    arithmetic. *)
Definition extrapolated_estimate (b : Brake) (tick : Z) : Z :=
  elapsed_since b tick * distance_remaining b / distance_covered b.

(** "max(0, estimate - elapsed)". *)
Definition remaining_time (b : Brake) (tick : Z) : Z :=
  Z.max 0 (estimated_operation_time_ms b - elapsed_since b tick).

Definition in_transit (b : Brake) : bool :=
  BrakeState_eqb (state b) BRAKE_STATE_PUSHING
  || BrakeState_eqb (state b) BRAKE_STATE_RELEASING.

End Spec.

(** ** Concrete runs used by the examples *)

Module Scenario.

Import Can Brake Controller.

Definition PUSH : Z := AUTOMATE_LEFT_BRAKE_CMD_BRAKE_STATE_PUSH_CHOICE.
Definition RELEASE : Z := AUTOMATE_LEFT_BRAKE_CMD_BRAKE_STATE_RELEASE_CHOICE.

(** Start-up with the actuator at the released reference position. *)
Definition at_rest : Brake := Brake_Init brake_boot (Some 200).

(** PUSH received at tick 0. *)
Definition pushing : Brake := Brake_ProcessCommand at_rest PUSH 0.

(** Emergency stop while at rest. *)
Definition after_emergency_stop : Brake := Brake_EmergencyStop at_rest.

(** The push did not finish within the operation timeout. *)
Definition after_timeout : Brake := Brake_Update pushing 5001.

(** Ten readings in a row above the valid sensor range. *)
Definition after_sensor_fault : Brake :=
  brake_run (replicate 10 (EvUpdatePosition (Some 4095))) at_rest.

(** A slow actuator: 20 ADC counts covered 2000 ms after the command. *)
Definition slow_push : Brake :=
  brake_run [EvUpdatePosition (Some 220); EvUpdate 2000] pushing.

(** Half-way after 1000 ms, before the state machine runs. *)
Definition half_way : Brake := Brake_UpdatePosition pushing (Some 2000).

(** Two frames queued for transmission, identifier 1 before identifier 2. *)
Definition two_queued : Driver :=
  snd (CAN_Driver_Send
         (snd (CAN_Driver_Send CAN_Driver_Init 1 (Some [1; 0; 0; 0; 0; 0; 0; 0]) 8))
         2 (Some [2; 0; 0; 0; 0; 0; 0; 0]) 8).

(** Nine puts on an empty buffer, then a get. *)
Definition nine_puts_one_get : list ring_op :=
  replicate 9 (OpPut zero_msg) ++ [OpGet].

(** A controller that has seen the PC at tick 0 and is ON. *)
Definition watching : Controller :=
  set_node_health AUTOMATE_HEART_BEAT_MSG_HEALTH_ON_CHOICE
    (set_pc_heartbeat 0 0 controller_boot).

(** A heartbeat of the PC with counter 7. *)
Definition pc_heartbeat : automate_heart_beat_msg_t :=
  mkHeartBeat NODE_ID_PC 7 AUTOMATE_HEART_BEAT_MSG_HEALTH_ON_CHOICE 250.

End Scenario.

(** ** Reference models for the transport *)

Module Queue.

Import Can.

(** A bounded FIFO of capacity 8 as a plain list, oldest first: a put on a
    full queue is refused, a get takes the first element. *)
Definition queue_step (q : list CAN_Message_t) (o : ring_op) : list CAN_Message_t :=
  match o with
  | OpPut msg => if (length q <? 8)%nat then q ++ [msg] else q
  | OpGet => drop 1 q
  end.

Definition queue_run (ops : list ring_op) (q : list CAN_Message_t)
    : list CAN_Message_t :=
  foldl queue_step q ops.

(** What the gets of an operation sequence return, in order. *)
Fixpoint queue_gets (ops : list ring_op) (q : list CAN_Message_t)
    : list (option CAN_Message_t) :=
  match ops with
  | [] => []
  | o :: ops' =>
      match o with
      | OpPut _ => queue_gets ops' (queue_step q o)
      | OpGet => hd_error q :: queue_gets ops' (queue_step q o)
      end
  end.

Fixpoint ring_gets (ops : list ring_op) (b : CAN_RingBuffer_t)
    : list (option CAN_Message_t) :=
  match ops with
  | [] => []
  | o :: ops' =>
      match o with
      | OpPut _ => ring_gets ops' (ring_step b o)
      | OpGet => fst (RingBuffer_Get b 8) :: ring_gets ops' (ring_step b o)
      end
  end.

(** Number of hardware sends that succeed before the first refusal. *)
Fixpoint leading_accepts (hal : Hal) : nat :=
  match hal with
  | true :: hal' => S (leading_accepts hal')
  | _ => O
  end.

(** The queue left by a drain that stopped in front of [pending]: the
    refused frame goes behind the others. *)
Definition requeued (pending : list CAN_Message_t) : list CAN_Message_t :=
  match pending with
  | [] => []
  | msg :: rest => rest ++ [msg]
  end.

End Queue.

(** ** Runs of sensor readings *)

Module Readings.

Import Brake.

(** A finished conversion whose value is outside the valid sensor range. *)
Definition invalid_reading (v : Z) : Prop := IsPositionValid (u16 v) = false.

(** The events of [Brake_UpdatePosition] called once per reading. *)
Definition sample_all (vs : list Z) : list brake_event :=
  map (fun v => EvUpdatePosition (Some v)) vs.

(** The motor as [Motor_Stop] leaves it. *)
Definition motor_stopped (b : Brake) : Prop :=
  motor_inh (motor b) = false /\ motor_duty (motor b) = 0.

(** The ranges of the C types and the pairing of state and target. *)
Definition brake_wf (b : Brake) : Prop :=
  0 <= current_position b < 65536 /\
  0 <= position_error_count b < 256 /\
  0 <= operation_start_tick b < 4294967296 /\
  0 <= estimated_operation_time_ms b < 4294967296 /\
  (motor_duty (motor b) = 0 \/ motor_duty (motor b) = 80) /\
  match state b with
  | BRAKE_STATE_PUSHING | BRAKE_STATE_PUSHED => target_position b = POSITION_PUSHED
  | BRAKE_STATE_RELEASING | BRAKE_STATE_RELEASED => target_position b = POSITION_RELEASED
  | BRAKE_STATE_STOPPED =>
      target_position b = POSITION_PUSHED \/ target_position b = POSITION_RELEASED
  end.

End Readings.

(** ** Vocabulary for the business loop *)

Module Loop.

Import Can Brake Controller.

(** The dispatcher applied to a list of frames, oldest first. *)
Definition dispatch_all (s : System) (msgs : list CAN_Message_t) (tick : Z) : System :=
  foldl (fun st msg => Dispatch st msg tick) s msgs.

(** Whether the loop at [tick] finds a heartbeat, a telemetry frame due. *)
Definition heartbeat_due (c : Controller) (tick : Z) : bool :=
  HEARTBEAT_INTERVAL_MS <=? u32 (u32 tick - last_heartbeat_tick c).

Definition telemetry_due (c : Controller) (tick : Z) : bool :=
  TELEMETRY_INTERVAL_MS <=? u32 (u32 tick - last_telemetry_tick c).

(** The controller fields that schedule and number the outgoing frames. *)
Definition same_schedule (c c' : Controller) : Prop :=
  heartbeat_msg_count c' = heartbeat_msg_count c /\
  last_heartbeat_tick c' = last_heartbeat_tick c /\
  telemetry_msg_id c' = telemetry_msg_id c /\
  last_telemetry_tick c' = last_telemetry_tick c.

(** A driver whose TX buffer holds eight frames. *)
Definition full_tx : Driver :=
  mkDriver ring_init (ring_run (replicate 8 (OpPut zero_msg)) ring_init).

(** The blink period of the status LED, for the states that blink. *)
Definition blink_period (b : Brake) : option Z :=
  match Brake.state b with
  | BRAKE_STATE_RELEASING | BRAKE_STATE_PUSHING => Some STATUS_LED_BLINK_PERIOD_MS
  | BRAKE_STATE_STOPPED => Some (STATUS_LED_BLINK_PERIOD_MS / 4)
  | _ => None
  end.

End Loop.

(** ** Proof automation *)

Ltac ring_arith :=
  unfold u8 in *; Z.to_euclidean_division_equations; lia.

Ltac health_step :=
  match goal with
  | |- context [if Controller.pc_heartbeat_received ?c then _ else _] =>
      destruct (Controller.pc_heartbeat_received c)
  | |- context [Controller.WATCHDOG_TIMEOUT_MS <? ?x] => destruct (Controller.WATCHDOG_TIMEOUT_MS <? x)
  | |- context [1000 <? ?x] => destruct (1000 <? x)
  | |- context [Controller.node_health ?c =? ?k] =>
      is_var c; destruct (Z.eqb_spec (Controller.node_health c) k)
  | |- context [Controller.node_health ?c <? ?k] =>
      is_var c; destruct (Z.ltb_spec (Controller.node_health c) k)
  end; simpl in *.

Ltac health_cases := repeat health_step; try lia.

(** * Properties *)

(** ** Fixed-width arithmetic *)

Lemma u8_range x : 0 <= u8 x < 256.
Proof. unfold u8. apply Z.mod_pos_bound. lia. Qed.

Lemma u16_range x : 0 <= u16 x < 65536.
Proof. unfold u16. apply Z.mod_pos_bound. lia. Qed.

Lemma u32_range x : 0 <= u32 x < 4294967296.
Proof. unfold u32. apply Z.mod_pos_bound. lia. Qed.

Lemma u8_small x : 0 <= x < 256 -> u8 x = x.
Proof. intros H. unfold u8. apply Z.mod_small. lia. Qed.

Lemma u16_small x : 0 <= x < 65536 -> u16 x = x.
Proof. intros H. unfold u16. apply Z.mod_small. lia. Qed.

Lemma u32_small x : 0 <= x < 4294967296 -> u32 x = x.
Proof. intros H. unfold u32. apply Z.mod_small. lia. Qed.

Lemma u32_sub_u32_r a b : u32 (a - u32 b) = u32 (a - b).
Proof. unfold u32. apply Zminus_mod_idemp_r. Qed.

Lemma u32_sub_u32_l a b : u32 (u32 a - b) = u32 (a - b).
Proof. unfold u32. apply Zminus_mod_idemp_l. Qed.

(** ** Ring buffers *)

Module CanFacts.

Import Can.

Lemma ring_init_inv : ring_inv ring_init.
Proof. unfold ring_inv, ring_init; simpl. repeat split; lia. Qed.

Lemma Put_full (b : CAN_RingBuffer_t) (msg : CAN_Message_t) :
  8 <= count b -> RingBuffer_Put b msg 8 = (false, b).
Proof.
  intros H. unfold RingBuffer_Put, RingBuffer_IsFull.
  destruct (Z.leb_spec 8 (count b)); [reflexivity | lia].
Qed.

Lemma Put_room (b : CAN_RingBuffer_t) (msg : CAN_Message_t) :
  count b < 8 ->
  RingBuffer_Put b msg 8 =
    (true, mkRing (<[Z.to_nat (head b) := msg]> (buffer b))
                  (u8 ((head b + 1) mod 8)) (tail b) (u8 (count b + 1))).
Proof.
  intros H. unfold RingBuffer_Put, RingBuffer_IsFull.
  destruct (Z.leb_spec 8 (count b)); [lia | reflexivity].
Qed.

Lemma Get_empty (b : CAN_RingBuffer_t) :
  count b = 0 -> RingBuffer_Get b 8 = (None, b).
Proof.
  intros H. unfold RingBuffer_Get, RingBuffer_IsEmpty. rewrite H. reflexivity.
Qed.

Lemma Get_some (b : CAN_RingBuffer_t) :
  count b <> 0 ->
  RingBuffer_Get b 8 =
    (Some (default zero_msg (buffer b !! Z.to_nat (tail b))),
     mkRing (buffer b) (head b) (u8 ((tail b + 1) mod 8)) (u8 (count b - 1))).
Proof.
  intros H. unfold RingBuffer_Get, RingBuffer_IsEmpty.
  destruct (Z.eqb_spec (count b) 0); [contradiction | reflexivity].
Qed.

Lemma Put_inv (b : CAN_RingBuffer_t) (msg : CAN_Message_t) :
  ring_inv b -> ring_inv (snd (RingBuffer_Put b msg 8)).
Proof.
  intros (Hc & Hh & Ht & Hl & Hrel).
  destruct (Z_lt_le_dec (count b) 8) as [Hlt | Hge].
  - rewrite Put_room by assumption. unfold ring_inv; simpl.
    rewrite length_insert.
    repeat split; try assumption; ring_arith.
  - rewrite Put_full by assumption. simpl. unfold ring_inv. auto.
Qed.

Lemma Get_inv (b : CAN_RingBuffer_t) :
  ring_inv b -> ring_inv (snd (RingBuffer_Get b 8)).
Proof.
  intros (Hc & Hh & Ht & Hl & Hrel).
  destruct (Z.eq_dec (count b) 0) as [Hz | Hnz].
  - rewrite Get_empty by assumption. simpl. unfold ring_inv. auto.
  - rewrite Get_some by assumption. unfold ring_inv; simpl.
    repeat split; try assumption; ring_arith.
Qed.

Lemma ring_step_inv (b : CAN_RingBuffer_t) (o : ring_op) :
  ring_inv b -> ring_inv (ring_step b o).
Proof.
  destruct o; simpl; [apply Put_inv | apply Get_inv].
Qed.

Lemma ring_run_inv (ops : list ring_op) :
  forall b, ring_inv b -> ring_inv (ring_run ops b).
Proof.
  unfold ring_run. induction ops as [| o ops IH]; intros b Hb; simpl.
  - assumption.
  - apply IH, ring_step_inv, Hb.
Qed.

(** *** Both buffers of the driver *)

Lemma CAN_Driver_Init_inv : driver_inv CAN_Driver_Init.
Proof. split; apply ring_init_inv. Qed.

Lemma CAN_Driver_Send_inv (d : Driver) (msg_id : Z) (payload : option (list Z))
    (n : Z) :
  driver_inv d -> driver_inv (snd (CAN_Driver_Send d msg_id payload n)).
Proof.
  intros [Hrx Htx]. unfold CAN_Driver_Send.
  destruct payload as [bytes |]; [| split; assumption].
  destruct (8 <? n); [split; assumption |].
  change CAN_TX_BUFFER_SIZE with 8.
  match goal with
  | |- context [RingBuffer_Put ?b ?m 8] =>
      pose proof (Put_inv b m Htx) as Hput; destruct (RingBuffer_Put b m 8)
  end.
  split; assumption.
Qed.

Lemma CAN_Driver_Get_inv (d : Driver) :
  driver_inv d -> driver_inv (snd (CAN_Driver_Get d)).
Proof.
  intros [Hrx Htx]. unfold CAN_Driver_Get. change CAN_RX_BUFFER_SIZE with 8.
  pose proof (Get_inv _ Hrx) as Hget.
  destruct (RingBuffer_Get (can_rx_buffer d) 8). split; assumption.
Qed.

Lemma CAN_Driver_RxCallback_inv (d : Driver)
    (frame : option (Z * bool * Z * list Z)) :
  driver_inv d -> driver_inv (CAN_Driver_RxCallback d frame).
Proof.
  intros [Hrx Htx]. unfold CAN_Driver_RxCallback.
  destruct frame as [[[[ident ext] dlc] bytes] |]; [| split; assumption].
  split; [apply Put_inv; assumption | assumption].
Qed.

Lemma Transmit_loop_inv (fuel : nat) :
  forall tx hal bus r, ring_inv tx ->
  Transmit_loop fuel tx hal bus = Some r -> ring_inv (drain_tx r).
Proof.
  induction fuel as [| fuel IH]; intros tx hal bus r Hinv Hrun; [discriminate |].
  simpl in Hrun. change CAN_TX_BUFFER_SIZE with 8 in Hrun.
  pose proof (Get_inv tx Hinv) as Hget.
  destruct (RingBuffer_Get tx 8) as [[msg |] tx']; simpl in Hget.
  - destruct hal as [| [|] hal'].
    + injection Hrun as <-. simpl. apply Put_inv, Hget.
    + eapply IH; eassumption.
    + injection Hrun as <-. simpl. apply Put_inv, Hget.
  - injection Hrun as <-. exact Hget.
Qed.

Lemma CAN_Driver_Transmit_inv (tx : CAN_RingBuffer_t) (hal : Hal) (r : Drain) :
  ring_inv tx -> CAN_Driver_Transmit tx hal = Some r -> ring_inv (drain_tx r).
Proof. apply Transmit_loop_inv. Qed.

(** *** The queue a ring buffer represents *)

Lemma ring_slots_snoc (slots : list CAN_Message_t) (n : nat) :
  forall from, 0 <= from < 8 ->
  ring_slots slots from (S n) =
    ring_slots slots from n
    ++ [default zero_msg (slots !! Z.to_nat ((from + Z.of_nat n) mod 8))].
Proof.
  induction n as [| n IH]; intros from Hf.
  - simpl. replace ((from + Z.of_nat 0) mod 8) with from by ring_arith.
    reflexivity.
  - change (ring_slots slots from (S (S n)))
      with (default zero_msg (slots !! Z.to_nat from)
            :: ring_slots slots ((from + 1) mod 8) (S n)).
    rewrite IH by ring_arith.
    replace (((from + 1) mod 8 + Z.of_nat n) mod 8)
      with ((from + Z.of_nat (S n)) mod 8) by ring_arith.
    reflexivity.
Qed.

Lemma ring_slots_insert_outside (slots : list CAN_Message_t) (h : Z)
    (msg : CAN_Message_t) (n : nat) :
  forall from, 0 <= from < 8 -> 0 <= h < 8 ->
  (forall k, 0 <= k < Z.of_nat n -> (from + k) mod 8 <> h) ->
  ring_slots (<[Z.to_nat h := msg]> slots) from n = ring_slots slots from n.
Proof.
  induction n as [| n IH]; intros from Hf Hh Hout; simpl.
  - reflexivity.
  - rewrite list_lookup_insert_ne.
    + f_equal. apply IH; [ring_arith | assumption |].
      intros k Hk. specialize (Hout (k + 1)).
      replace (((from + 1) mod 8 + k) mod 8) with ((from + (k + 1)) mod 8)
        by ring_arith.
      apply Hout. lia.
    + specialize (Hout 0). intros Heq. apply Hout; [lia |].
      replace ((from + 0) mod 8) with from by ring_arith. lia.
Qed.

Lemma contents_length (b : CAN_RingBuffer_t) :
  length (ring_contents b) = Z.to_nat (count b).
Proof.
  unfold ring_contents. generalize (tail b).
  induction (Z.to_nat (count b)) as [| n IH]; intros from; simpl; congruence.
Qed.

(** A successful put appends to the queue. *)
Lemma contents_Put (b : CAN_RingBuffer_t) (msg : CAN_Message_t) :
  ring_inv b -> count b < 8 ->
  ring_contents (snd (RingBuffer_Put b msg 8)) = ring_contents b ++ [msg].
Proof.
  intros (Hc & Hh & Ht & Hl & Hrel) Hlt.
  rewrite Put_room by assumption. unfold ring_contents; simpl.
  rewrite u8_small by lia.
  replace (Z.to_nat (count b + 1)) with (S (Z.to_nat (count b))) by lia.
  rewrite ring_slots_snoc by assumption.
  rewrite Z2Nat.id by lia. rewrite <- Hrel.
  rewrite list_lookup_insert_eq by lia. simpl.
  rewrite ring_slots_insert_outside; [reflexivity | assumption | assumption |].
  intros k Hk. rewrite Z2Nat.id in Hk by lia. ring_arith.
Qed.

(** A successful get removes the oldest message and returns it. *)
Lemma contents_Get (b : CAN_RingBuffer_t) :
  ring_inv b -> count b <> 0 ->
  exists msg, fst (RingBuffer_Get b 8) = Some msg /\
    ring_contents b = msg :: ring_contents (snd (RingBuffer_Get b 8)).
Proof.
  intros (Hc & Hh & Ht & Hl & Hrel) Hnz.
  rewrite Get_some by assumption. simpl.
  eexists. split; [reflexivity |].
  unfold ring_contents; simpl.
  rewrite !u8_small by ring_arith.
  replace (Z.to_nat (count b)) with (S (Z.to_nat (count b - 1))) by lia.
  reflexivity.
Qed.

Lemma contents_empty (b : CAN_RingBuffer_t) :
  count b = 0 -> ring_contents b = [].
Proof. intros H. unfold ring_contents. rewrite H. reflexivity. Qed.

(** *** The outbound drain *)

(** The drain always returns: the loop runs at most [count] times. *)
Lemma Transmit_loop_total (fuel : nat) :
  forall tx hal bus, 0 <= count tx < 256 -> (Z.to_nat (count tx) < fuel)%nat ->
  exists r, Transmit_loop fuel tx hal bus = Some r.
Proof.
  induction fuel as [| fuel IH]; intros tx hal bus Hc Hfuel; [lia |].
  simpl. unfold RingBuffer_Get, RingBuffer_IsEmpty.
  destruct (Z.eqb_spec (count tx) 0) as [Hz | Hnz]; [eauto |].
  destruct hal as [| [|] hal']; eauto.
  apply IH; simpl; rewrite u8_small by lia; lia.
Qed.

Lemma CAN_Driver_Transmit_total (tx : CAN_RingBuffer_t) (hal : Hal) :
  0 <= count tx < 256 -> exists r, CAN_Driver_Transmit tx hal = Some r.
Proof.
  intros Hc. apply Transmit_loop_total; [assumption | lia].
Qed.

(** While the hardware accepts every frame, the drain puts the whole
    queue on the bus, oldest first. *)
Lemma Transmit_loop_all_accepted (n : nat) :
  forall fuel tx hal bus, ring_inv tx -> Z.to_nat (count tx) = n ->
  (n < fuel)%nat ->
  exists r, Transmit_loop fuel tx (replicate n true ++ hal) bus = Some r /\
    drain_bus r = bus ++ ring_contents tx /\ drain_hal r = hal /\
    count (drain_tx r) = 0.
Proof.
  induction n as [| n IH]; intros fuel tx hal bus Hinv Hn Hfuel;
    (destruct fuel as [| fuel]; [lia |]); simpl;
    change CAN_TX_BUFFER_SIZE with 8.
  - assert (Hz : count tx = 0) by (destruct Hinv; lia).
    rewrite Get_empty by assumption. eexists. split; [reflexivity |].
    simpl. rewrite contents_empty by assumption. rewrite app_nil_r. auto.
  - assert (Hnz : count tx <> 0) by lia.
    destruct (contents_Get tx Hinv Hnz) as (msg & Hfst & Hcont).
    pose proof (Get_inv tx Hinv) as Hinv'.
    change CAN_TX_BUFFER_SIZE with 8.
    destruct (RingBuffer_Get tx 8) as [o tx'] eqn:Hget. simpl in *. subst o.
    assert (Hcnt : Z.to_nat (count tx') = n).
    { pose proof (contents_length tx) as H1.
      pose proof (contents_length tx') as H2.
      rewrite Hcont in H1. simpl in H1. lia. }
    destruct (IH fuel tx' hal (bus ++ [msg]) Hinv' Hcnt ltac:(lia))
      as (r & Hr & Hbus & Hhal & Hzero).
    exists r. split; [exact Hr |]. rewrite Hbus, Hcont, <- app_assoc. auto.
Qed.

(** When the hardware refuses the oldest frame the drain stops, nothing
    reaches the bus, and the frame is put back behind the frames that
    were queued after it. *)
Lemma Transmit_refused_goes_back (tx : CAN_RingBuffer_t) (hal : Hal)
    (msg : CAN_Message_t) (rest : list CAN_Message_t) :
  ring_inv tx -> ring_contents tx = msg :: rest ->
  exists r, CAN_Driver_Transmit tx (false :: hal) = Some r /\
    drain_bus r = [] /\ drain_hal r = hal /\
    ring_contents (drain_tx r) = rest ++ [msg].
Proof.
  intros Hinv Hcont.
  assert (Hnz : count tx <> 0).
  { intros Hz. rewrite contents_empty in Hcont by assumption. discriminate. }
  destruct (contents_Get tx Hinv Hnz) as (m & Hfst & Hcont').
  pose proof (Get_inv tx Hinv) as Hinv'.
  unfold CAN_Driver_Transmit. simpl. change CAN_TX_BUFFER_SIZE with 8.
  destruct (RingBuffer_Get tx 8) as [o tx'] eqn:Hget. simpl in *. subst o.
  rewrite Hcont in Hcont'. injection Hcont' as Hm Hrest. subst m rest.
  eexists. split; [reflexivity |]. simpl. repeat split.
  apply contents_Put; [assumption |].
  pose proof (contents_length tx) as H1. pose proof (contents_length tx') as H2.
  rewrite Hcont in H1. simpl in H1. destruct Hinv as (? & _). lia.
Qed.

(** C4. Every sequence of put and get operations on a ring buffer of
    capacity 8 (the RX and the TX buffer alike) keeps 0 <= count <= 8 and
    head and tail in [0, 8); a successful put or get advances its index
    by one modulo 8; a put on a full buffer returns false and leaves the
    buffer, its indices and its count as they were, so the message
    rejected is the newest one. *)
Theorem ring_ops_keep_invariant (ops : list ring_op) (b : CAN_RingBuffer_t) :
  ring_inv b ->
  (0 <= count (ring_run ops b) <= 8 /\
   0 <= head (ring_run ops b) < 8 /\
   0 <= tail (ring_run ops b) < 8) /\
  (forall msg, count (ring_run ops b) = 8 ->
     RingBuffer_Put (ring_run ops b) msg 8 = (false, ring_run ops b)) /\
  (forall msg, count (ring_run ops b) < 8 ->
     exists b', RingBuffer_Put (ring_run ops b) msg 8 = (true, b') /\
       head b' = (head (ring_run ops b) + 1) mod 8 /\
       tail b' = tail (ring_run ops b) /\
       count b' = count (ring_run ops b) + 1 /\
       ring_contents b' = ring_contents (ring_run ops b) ++ [msg]) /\
  (count (ring_run ops b) <> 0 ->
     exists msg b', RingBuffer_Get (ring_run ops b) 8 = (Some msg, b') /\
       head b' = head (ring_run ops b) /\
       tail b' = (tail (ring_run ops b) + 1) mod 8 /\
       count b' = count (ring_run ops b) - 1 /\
       ring_contents (ring_run ops b) = msg :: ring_contents b').
Proof.
  intros Hb. pose proof (ring_run_inv ops b Hb) as Hinv.
  set (r := ring_run ops b) in *. clearbody r.
  pose proof Hinv as (Hc & Hh & Ht & Hl & Hrel).
  split; [auto |]. split; [| split].
  - intros msg Hfull. apply Put_full. lia.
  - intros msg Hlt. pose proof (contents_Put r msg Hinv Hlt) as Hcont.
    rewrite Put_room in * by assumption. simpl in Hcont.
    eexists. split; [reflexivity |]. simpl.
    split; [ring_arith |]. split; [reflexivity |]. split; [ring_arith |].
    exact Hcont.
  - intros Hnz. destruct (contents_Get r Hinv Hnz) as (msg & Hfst & Hcont).
    rewrite Get_some in * by assumption. simpl in Hfst, Hcont.
    do 2 eexists. split; [reflexivity |]. simpl.
    split; [reflexivity |]. split; [ring_arith |]. split; [ring_arith |].
    injection Hfst as <-. exact Hcont.
Qed.

Lemma ring_ops_keep_invariant_witness :
  ring_inv ring_init /\
  0 <= count (ring_run Scenario.nine_puts_one_get ring_init) <= 8.
Proof.
  assert (H : ring_inv ring_init).
  { unfold ring_inv; simpl. repeat split; lia. }
  split; [exact H |].
  exact (proj1 (proj1 (ring_ops_keep_invariant Scenario.nine_puts_one_get
                         ring_init H))).
Defined.

(** C2 (what the code does). With frames 1 then 2 queued, a drain whose
    first hardware send fails leaves the queue as 2 then 1, and the next
    drain, with the hardware accepting, puts 2 on the bus before 1: the
    refused frame is retried last, not first, and the bus order differs
    from the enqueue order. *)
Theorem drain_retry_reorders :
  map id (ring_contents (can_tx_buffer Scenario.two_queued)) = [1; 2] /\
  exists r1 r2,
    CAN_Driver_Transmit (can_tx_buffer Scenario.two_queued) [false] = Some r1 /\
    drain_bus r1 = [] /\
    map id (ring_contents (drain_tx r1)) = [2; 1] /\
    CAN_Driver_Transmit (drain_tx r1) [true; true] = Some r2 /\
    map id (drain_bus r2) = [2; 1].
Proof.
  split; [reflexivity |].
  do 2 eexists. split; [vm_compute; reflexivity |].
  split; [reflexivity |]. split; [reflexivity |].
  split; [vm_compute; reflexivity |]. reflexivity.
Qed.

End CanFacts.

(** ** The actuator state machine *)

Module BrakeFacts.

Import Brake Spec.

Lemma BrakeState_eqb_eq (a b : BrakeState_t) :
  BrakeState_eqb a b = true <-> a = b.
Proof. destruct a, b; simpl; split; congruence. Qed.

Lemma state_Motor_Stop (b : Brake) : state (Motor_Stop b) = state b.
Proof. reflexivity. Qed.

Lemma state_classify_position (b : Brake) :
  state (classify_position b) = BRAKE_STATE_RELEASED \/
  state (classify_position b) = BRAKE_STATE_PUSHED.
Proof.
  unfold classify_position.
  destruct (current_position b <=? _); [left; reflexivity |].
  destruct (_ <=? current_position b); [right | left]; reflexivity.
Qed.

Lemma classify_position_spec (b : Brake) :
  state (classify_position b) =
    (if current_position b <=? 300 then BRAKE_STATE_RELEASED
     else if 3700 <=? current_position b then BRAKE_STATE_PUSHED
     else BRAKE_STATE_RELEASED) /\
  position_error_count (classify_position b) = position_error_count b /\
  current_position (classify_position b) = current_position b.
Proof.
  unfold classify_position.
  change (POSITION_RELEASED + POSITION_TOLERANCE) with 300.
  change (POSITION_PUSHED - POSITION_TOLERANCE) with 3700.
  destruct (current_position b <=? 300); [auto |].
  destruct (3700 <=? current_position b); auto.
Qed.

Lemma state_UpdatePosition (b : Brake) (adc : option Z) :
  state (Brake_UpdatePosition b adc) = state b \/
  state (Brake_UpdatePosition b adc) = BRAKE_STATE_STOPPED.
Proof.
  unfold Brake_UpdatePosition.
  destruct (IsPositionValid _); [left; reflexivity |].
  destruct (_ <=? _); [right | left]; reflexivity.
Qed.

Lemma state_Update_stopped (b : Brake) (tick : Z) :
  state b = BRAKE_STATE_STOPPED ->
  state (Brake_Update b tick) = BRAKE_STATE_STOPPED.
Proof.
  intros H. unfold Brake_Update. rewrite H. simpl. exact H.
Qed.

(** A valid fresh sample is stored and decides the recovery. *)
Lemma ClearError_valid_sample (b : Brake) (adc : option Z) :
  IsPositionValid (ADC_ReadPosition b adc) = true ->
  fst (Brake_ClearError b adc) = true /\
  current_position (snd (Brake_ClearError b adc)) = ADC_ReadPosition b adc /\
  position_error_count (snd (Brake_ClearError b adc)) = 0 /\
  state (snd (Brake_ClearError b adc)) =
    (if ADC_ReadPosition b adc <=? 300 then BRAKE_STATE_RELEASED
     else if 3700 <=? ADC_ReadPosition b adc then BRAKE_STATE_PUSHED
     else BRAKE_STATE_RELEASED).
Proof.
  intros Hv. unfold Brake_ClearError, Brake_UpdatePosition.
  change (ADC_ReadPosition (set_position_error_count 0 b) adc)
    with (ADC_ReadPosition b adc).
  rewrite Hv. simpl. rewrite Hv. simpl.
  match goal with
  | |- context [classify_position ?x] =>
      destruct (classify_position_spec x) as (Hs & He & Hp)
  end.
  repeat split; assumption.
Qed.

(** An invalid fresh sample is not stored; the validity test then looks at
    the position kept from before. *)
Lemma ClearError_invalid_sample (b : Brake) (adc : option Z) :
  IsPositionValid (ADC_ReadPosition b adc) = false ->
  fst (Brake_ClearError b adc) = IsPositionValid (current_position b) /\
  (IsPositionValid (current_position b) = false ->
     state (snd (Brake_ClearError b adc)) = state b) /\
  (IsPositionValid (current_position b) = true ->
     state (snd (Brake_ClearError b adc)) <> BRAKE_STATE_STOPPED /\
     position_error_count (snd (Brake_ClearError b adc)) = 1).
Proof.
  intros Hv. unfold Brake_ClearError, Brake_UpdatePosition.
  change (ADC_ReadPosition (set_position_error_count 0 b) adc)
    with (ADC_ReadPosition b adc).
  rewrite Hv. simpl.
  destruct (IsPositionValid (current_position b)) eqn:Hold; simpl.
  - split; [reflexivity |]. split; [discriminate |]. intros _.
    match goal with
    | |- context [classify_position ?x] =>
        destruct (classify_position_spec x) as (Hs & He & Hp);
        destruct (state_classify_position x) as [Hc | Hc]
    end; rewrite Hc, He; split; [discriminate | reflexivity | discriminate | reflexivity].
  - split; [reflexivity |]. split; [reflexivity | discriminate].
Qed.

Lemma reachable_run (es : list brake_event) :
  forall b, reachable b -> reachable (brake_run es b).
Proof.
  unfold brake_run. induction es as [| e es IH]; intros b Hb; simpl.
  - exact Hb.
  - apply IH, reach_step, Hb.
Qed.

(** *** Commands in STOPPED *)

Lemma ProcessCommand_push (b : Brake) (tick : Z) :
  state b = BRAKE_STATE_STOPPED ->
  position_error_count b < MAX_POSITION_ERRORS ->
  state (Brake_ProcessCommand b AUTOMATE_LEFT_BRAKE_CMD_BRAKE_STATE_PUSH_CHOICE tick)
    = BRAKE_STATE_PUSHING.
Proof.
  intros Hs Hc. unfold Brake_ProcessCommand. rewrite Hs. simpl.
  destruct (Z.leb_spec MAX_POSITION_ERRORS (position_error_count b)); [lia |].
  reflexivity.
Qed.

Lemma ProcessCommand_release (b : Brake) (tick : Z) :
  state b = BRAKE_STATE_STOPPED ->
  position_error_count b < MAX_POSITION_ERRORS ->
  state (Brake_ProcessCommand b AUTOMATE_LEFT_BRAKE_CMD_BRAKE_STATE_RELEASE_CHOICE tick)
    = BRAKE_STATE_RELEASING.
Proof.
  intros Hs Hc. unfold Brake_ProcessCommand. rewrite Hs. simpl.
  destruct (Z.leb_spec MAX_POSITION_ERRORS (position_error_count b)); [lia |].
  reflexivity.
Qed.

Lemma ProcessCommand_gated (b : Brake) (cmd tick : Z) :
  state b = BRAKE_STATE_STOPPED ->
  MAX_POSITION_ERRORS <= position_error_count b ->
  Brake_ProcessCommand b cmd tick = b.
Proof.
  intros Hs Hc. unfold Brake_ProcessCommand. rewrite Hs. simpl.
  destruct (Z.leb_spec MAX_POSITION_ERRORS (position_error_count b)); [| lia].
  reflexivity.
Qed.

(** In STOPPED a command either changes nothing or starts the operation it
    names. *)
Lemma ProcessCommand_stopped_cases (b : Brake) (cmd tick : Z) :
  state b = BRAKE_STATE_STOPPED ->
  Brake_ProcessCommand b cmd tick = b \/
  (position_error_count b < MAX_POSITION_ERRORS /\
   ((cmd = AUTOMATE_LEFT_BRAKE_CMD_BRAKE_STATE_PUSH_CHOICE /\
     state (Brake_ProcessCommand b cmd tick) = BRAKE_STATE_PUSHING) \/
    (cmd = AUTOMATE_LEFT_BRAKE_CMD_BRAKE_STATE_RELEASE_CHOICE /\
     state (Brake_ProcessCommand b cmd tick) = BRAKE_STATE_RELEASING))).
Proof.
  intros Hs.
  destruct (Z_lt_le_dec (position_error_count b) MAX_POSITION_ERRORS) as [Hlt | Hge].
  - destruct (Z.eq_dec cmd AUTOMATE_LEFT_BRAKE_CMD_BRAKE_STATE_PUSH_CHOICE) as [-> | Hp].
    { right. split; [assumption |]. left. split; [reflexivity |].
      apply ProcessCommand_push; assumption. }
    destruct (Z.eq_dec cmd AUTOMATE_LEFT_BRAKE_CMD_BRAKE_STATE_RELEASE_CHOICE) as [-> | Hr].
    { right. split; [assumption |]. right. split; [reflexivity |].
      apply ProcessCommand_release; assumption. }
    left. unfold Brake_ProcessCommand.
    destruct (_ && _); [reflexivity |].
    destruct (Z.eqb_spec cmd AUTOMATE_LEFT_BRAKE_CMD_BRAKE_STATE_PUSH_CHOICE);
      [contradiction |].
    destruct (Z.eqb_spec cmd AUTOMATE_LEFT_BRAKE_CMD_BRAKE_STATE_RELEASE_CHOICE);
      [contradiction | reflexivity].
  - left. apply ProcessCommand_gated; assumption.
Qed.

(** C1 (as the code has it). In a STOPPED state whose invalid-sample
    counter is at or above 10, that is STOPPED through sustained invalid
    feedback, a command changes nothing.  In a STOPPED state with the
    counter below 10, as after an operation timeout or an emergency stop,
    PUSH leads to PUSHING and RELEASE to RELEASING.  Apart from such a
    command, the only event that leaves STOPPED is [Brake_ClearError], and
    it leads to RELEASED or PUSHED. *)
Theorem stopped_command_gate (b : Brake) :
  state b = BRAKE_STATE_STOPPED ->
  (MAX_POSITION_ERRORS <= position_error_count b ->
   forall cmd tick, Brake_ProcessCommand b cmd tick = b) /\
  (position_error_count b < MAX_POSITION_ERRORS ->
   forall tick,
     state (Brake_ProcessCommand b AUTOMATE_LEFT_BRAKE_CMD_BRAKE_STATE_PUSH_CHOICE tick)
       = BRAKE_STATE_PUSHING /\
     state (Brake_ProcessCommand b AUTOMATE_LEFT_BRAKE_CMD_BRAKE_STATE_RELEASE_CHOICE tick)
       = BRAKE_STATE_RELEASING) /\
  (forall e, state (brake_step b e) <> BRAKE_STATE_STOPPED ->
     (exists adc, e = EvClearError adc /\
        (state (brake_step b e) = BRAKE_STATE_RELEASED \/
         state (brake_step b e) = BRAKE_STATE_PUSHED)) \/
     (exists cmd tick, e = EvCommand cmd tick /\
        position_error_count b < MAX_POSITION_ERRORS /\
        ((cmd = AUTOMATE_LEFT_BRAKE_CMD_BRAKE_STATE_PUSH_CHOICE /\
          state (brake_step b e) = BRAKE_STATE_PUSHING) \/
         (cmd = AUTOMATE_LEFT_BRAKE_CMD_BRAKE_STATE_RELEASE_CHOICE /\
          state (brake_step b e) = BRAKE_STATE_RELEASING)))).
Proof.
  intros Hs. split; [| split].
  - intros Hc cmd tick. apply ProcessCommand_gated; assumption.
  - intros Hc tick. split;
      [apply ProcessCommand_push | apply ProcessCommand_release]; assumption.
  - intros e Hleft. destruct e as [adc | cmd tick | tick | | adc]; simpl in *.
    + exfalso. destruct (state_UpdatePosition b adc) as [H | H]; congruence.
    + right. exists cmd, tick. split; [reflexivity |].
      destruct (ProcessCommand_stopped_cases b cmd tick Hs) as [H | H];
        [rewrite H in Hleft; contradiction | exact H].
    + exfalso. apply Hleft. apply state_Update_stopped, Hs.
    + exfalso. apply Hleft. reflexivity.
    + left. exists adc. split; [reflexivity |].
      unfold Brake_ClearError in *.
      destruct (IsPositionValid _); simpl in *.
      * apply state_classify_position.
      * exfalso.
        destruct (state_UpdatePosition (set_position_error_count 0 b) adc)
          as [H | H]; simpl in H; congruence.
Qed.

Lemma stopped_command_gate_witness :
  state Scenario.after_sensor_fault = BRAKE_STATE_STOPPED /\
  MAX_POSITION_ERRORS <= position_error_count Scenario.after_sensor_fault /\
  Brake_ProcessCommand Scenario.after_sensor_fault Scenario.PUSH 600
    = Scenario.after_sensor_fault.
Proof.
  assert (Hs : state Scenario.after_sensor_fault = BRAKE_STATE_STOPPED)
    by reflexivity.
  assert (Hc : MAX_POSITION_ERRORS <= position_error_count Scenario.after_sensor_fault)
    by (vm_compute; discriminate).
  split; [exact Hs |]. split; [exact Hc |].
  exact (proj1 (stopped_command_gate Scenario.after_sensor_fault Hs) Hc
           Scenario.PUSH 600).
Defined.

(** C1 (as stated) fails: after an emergency stop, and after an operation
    timeout, the actuator is STOPPED and the next command moves it. *)
Lemma stopped_accepts_command :
  reachable Scenario.after_emergency_stop /\
  state Scenario.after_emergency_stop = BRAKE_STATE_STOPPED /\
  state (Brake_ProcessCommand Scenario.after_emergency_stop Scenario.PUSH 10)
    = BRAKE_STATE_PUSHING /\
  reachable Scenario.after_timeout /\
  state Scenario.after_timeout = BRAKE_STATE_STOPPED /\
  state (Brake_ProcessCommand Scenario.after_timeout Scenario.RELEASE 5002)
    = BRAKE_STATE_RELEASING.
Proof.
  split.
  { change Scenario.after_emergency_stop
      with (brake_step Scenario.at_rest EvEmergencyStop).
    apply reach_step, reach_init. }
  split; [reflexivity |]. split; [reflexivity |].
  split.
  { change Scenario.after_timeout
      with (brake_step (brake_step Scenario.at_rest (EvCommand Scenario.PUSH 0))
                       (EvUpdate 5001)).
    do 2 apply reach_step. apply reach_init. }
  split; reflexivity.
Qed.

(** *** Recovery *)

(** C3 (what the code does). After ten invalid readings the actuator is
    STOPPED with 200 as its last valid position.  [Brake_ClearError] with a
    fresh reading of 4095, which is invalid, returns true and sets RELEASED
    with the counter at 1: the validity test reads the stored position,
    not the fresh sample. *)
Theorem ClearError_passes_on_stale_position :
  reachable Scenario.after_sensor_fault /\
  state Scenario.after_sensor_fault = BRAKE_STATE_STOPPED /\
  current_position Scenario.after_sensor_fault = 200 /\
  IsPositionValid (ADC_ReadPosition Scenario.after_sensor_fault (Some 4095)) = false /\
  fst (Brake_ClearError Scenario.after_sensor_fault (Some 4095)) = true /\
  state (snd (Brake_ClearError Scenario.after_sensor_fault (Some 4095)))
    = BRAKE_STATE_RELEASED /\
  position_error_count (snd (Brake_ClearError Scenario.after_sensor_fault (Some 4095)))
    = 1.
Proof.
  split.
  { apply reachable_run, reach_init. }
  repeat split; reflexivity.
Qed.

(** *** Time to end *)

Lemma in_transit_states (b : Brake) :
  in_transit b = false <->
  (state b = BRAKE_STATE_RELEASED \/ state b = BRAKE_STATE_PUSHED \/
   state b = BRAKE_STATE_STOPPED).
Proof.
  unfold in_transit. destruct (state b); simpl; split; intros H;
    try discriminate; try reflexivity; auto;
    destruct H as [H | [H | H]]; discriminate.
Qed.

(** C7 (as the code has it). While PUSHING or RELEASING,
    [Brake_GetTimeToEnd] returns max(0, estimate - elapsed) reduced to 16
    bits, which is max(0, estimate - elapsed) itself whenever that is
    below 65536; in RELEASED, PUSHED and STOPPED it returns 0. *)
Theorem time_to_end_value (b : Brake) (tick : Z) :
  (in_transit b = true ->
     Brake_GetTimeToEnd b tick = u16 (remaining_time b tick) /\
     (remaining_time b tick < 65536 ->
        Brake_GetTimeToEnd b tick = remaining_time b tick)) /\
  (state b = BRAKE_STATE_RELEASED \/ state b = BRAKE_STATE_PUSHED \/
   state b = BRAKE_STATE_STOPPED ->
     Brake_GetTimeToEnd b tick = 0).
Proof.
  split.
  - intros Ht.
    assert (Hv : Brake_GetTimeToEnd b tick = u16 (remaining_time b tick)).
    { unfold Brake_GetTimeToEnd, remaining_time. unfold in_transit in Ht.
      rewrite Ht.
      destruct (Z.ltb_spec (elapsed_since b tick) (estimated_operation_time_ms b)).
      - rewrite Z.max_r by lia. reflexivity.
      - rewrite Z.max_l by lia. reflexivity. }
    split; [exact Hv |]. intros Hsmall. rewrite Hv. apply u16_small.
    unfold remaining_time in *. lia.
  - intros Hs. apply in_transit_states in Hs.
    unfold Brake_GetTimeToEnd. unfold in_transit in Hs. rewrite Hs. reflexivity.
Qed.

Lemma time_to_end_value_witness :
  in_transit Scenario.pushing = true /\
  remaining_time Scenario.pushing 100 < 65536 /\
  Brake_GetTimeToEnd Scenario.pushing 100 = remaining_time Scenario.pushing 100.
Proof.
  assert (Ht : in_transit Scenario.pushing = true) by reflexivity.
  assert (Hs : remaining_time Scenario.pushing 100 < 65536) by reflexivity.
  split; [exact Ht |]. split; [exact Hs |].
  exact (proj2 (proj1 (time_to_end_value Scenario.pushing 100) Ht) Hs).
Defined.

(** C7 (as stated) fails: with a push that covered 20 ADC counts in
    2000 ms the stored estimate is 358000, max(0, estimate - elapsed) is
    356000, and [Brake_GetTimeToEnd] returns 28320. *)
Lemma time_to_end_wraps :
  reachable Scenario.slow_push /\
  state Scenario.slow_push = BRAKE_STATE_PUSHING /\
  estimated_operation_time_ms Scenario.slow_push = 358000 /\
  remaining_time Scenario.slow_push 2000 = 356000 /\
  Brake_GetTimeToEnd Scenario.slow_push 2000 = 28320.
Proof.
  split.
  { apply reachable_run.
    change Scenario.pushing
      with (brake_step Scenario.at_rest (EvCommand Scenario.PUSH 0)).
    apply reach_step, reach_init. }
  repeat split; reflexivity.
Qed.

(** *** The remaining-time estimate *)

(** With time elapsed and distance covered, the code divides first and
    multiplies afterwards, in 32-bit unsigned arithmetic. *)
Lemma UpdateOperationEstimate_progress (b : Brake) (tick : Z) :
  in_transit b = true ->
  0 < elapsed_since b tick -> 0 < distance_covered b ->
  estimated_operation_time_ms (UpdateOperationEstimate b tick) =
    u32 (elapsed_since b tick / u32 (distance_covered b)
         * u32 (distance_remaining b)).
Proof.
  unfold in_transit, distance_covered, distance_remaining, operation_span,
    UpdateOperationEstimate.
  intros Ht He Hd.
  destruct (state b); try discriminate; simpl in *;
    (destruct (Z.ltb_spec 0 (elapsed_since b tick)); [| lia]);
    match goal with
    | |- context [0 <? ?d] => destruct (Z.ltb_spec 0 d); [| lia]
    end; reflexivity.
Qed.

(** Without distance covered the default of 2000 is kept or restored. *)
Lemma UpdateOperationEstimate_no_progress (b : Brake) (tick : Z) :
  in_transit b = true -> distance_covered b <= 0 ->
  0 < elapsed_since b tick \/ estimated_operation_time_ms b = 2000 ->
  estimated_operation_time_ms (UpdateOperationEstimate b tick) = 2000.
Proof.
  unfold in_transit, distance_covered, operation_span, UpdateOperationEstimate.
  intros Ht Hd He.
  destruct (state b); try discriminate; simpl in *;
    (destruct (Z.ltb_spec 0 (elapsed_since b tick)); [| destruct He; [lia | assumption]]);
    match goal with
    | |- context [0 <? ?d] => destruct (Z.ltb_spec 0 d); [lia |]
    end; reflexivity.
Qed.

(** C8 (what the code does). A push that is half-way (position 2000)
    after 1000 ms has covered 1800 counts with 1800 to go, so
    elapsed * distance_remaining / distance_covered is 1000; the code
    computes (1000 / 1800) * 1800 and stores 0. *)
Theorem estimate_divides_before_multiplying :
  reachable Scenario.half_way /\
  state Scenario.half_way = BRAKE_STATE_PUSHING /\
  elapsed_since Scenario.half_way 1000 = 1000 /\
  distance_covered Scenario.half_way = 1800 /\
  distance_remaining Scenario.half_way = 1800 /\
  extrapolated_estimate Scenario.half_way 1000 = 1000 /\
  estimated_operation_time_ms (UpdateOperationEstimate Scenario.half_way 1000) = 0 /\
  estimated_operation_time_ms (Brake_Update Scenario.half_way 1000) = 0.
Proof.
  split.
  { change Scenario.half_way
      with (brake_step (brake_step Scenario.at_rest (EvCommand Scenario.PUSH 0))
                       (EvUpdatePosition (Some 2000))).
    do 2 apply reach_step. apply reach_init. }
  repeat split; reflexivity.
Qed.

End BrakeFacts.

(** ** Heartbeat, watchdog and health *)

Module ControllerFacts.

Import Can Brake Controller.

(** *** The dispatcher returns *)

Lemma can_Dispatch (s : System) (msg : CAN_Message_t) (tick : Z) :
  can (Dispatch s msg tick) = can s.
Proof.
  unfold Dispatch.
  destruct (Can.id msg =? AUTOMATE_HEART_BEAT_MSG_FRAME_ID).
  { destruct (automate_heart_beat_msg_unpack _ _); reflexivity. }
  destruct (Can.id msg =? AUTOMATE_LEFT_BRAKE_CMD_FRAME_ID); [| reflexivity].
  destruct (automate_left_brake_cmd_unpack _ _) as [cmd |]; [| reflexivity].
  destruct (automate_left_brake_cmd_brake_state_is_in_range _); reflexivity.
Qed.

Lemma ProcessReceivedMessage_loop_total (fuel : nat) :
  forall s tick,
  0 <= count (can_rx_buffer (can s)) < 256 ->
  (Z.to_nat (count (can_rx_buffer (can s))) < fuel)%nat ->
  exists s', ProcessReceivedMessage_loop fuel s tick = Some s'.
Proof.
  induction fuel as [| fuel IH]; intros s tick Hc Hfuel; [lia |].
  simpl. unfold CAN_Driver_Get, RingBuffer_Get, RingBuffer_IsEmpty.
  destruct (Z.eqb_spec (count (can_rx_buffer (can s))) 0) as [Hz | Hnz];
    [eauto |].
  apply IH; rewrite can_Dispatch; simpl; rewrite u8_small by lia; lia.
Qed.

Lemma ProcessReceivedMessage_total (s : System) (tick : Z) :
  0 <= count (can_rx_buffer (can s)) < 256 ->
  exists s', ProcessReceivedMessage s tick = Some s'.
Proof.
  intros Hc. apply ProcessReceivedMessage_loop_total; [assumption | lia].
Qed.

Lemma Business_Loop_total (s : System) (tick : Z) :
  0 <= count (can_rx_buffer (can s)) < 256 ->
  exists s', Business_Loop s tick = Some s'.
Proof.
  intros Hc. unfold Business_Loop.
  destruct (ProcessReceivedMessage_total s tick Hc) as (s' & ->). eauto.
Qed.

(** *** Health evaluation *)

(** With the PC seen and no actuator fault, ON and WARNING follow the
    32-bit age of the last PC heartbeat. *)
Lemma UpdateSystemHealth_watchdog (c : Controller) (b : Brake) (tick : Z) :
  pc_heartbeat_received c = true ->
  Brake_HasError b = false ->
  node_health c = AUTOMATE_HEART_BEAT_MSG_HEALTH_ON_CHOICE \/
  node_health c = AUTOMATE_HEART_BEAT_MSG_HEALTH_WARNING_CHOICE ->
  node_health (UpdateSystemHealth c b tick) =
    if WATCHDOG_TIMEOUT_MS <? u32 (tick - last_pc_heartbeat_tick c)
    then AUTOMATE_HEART_BEAT_MSG_HEALTH_WARNING_CHOICE
    else AUTOMATE_HEART_BEAT_MSG_HEALTH_ON_CHOICE.
Proof.
  intros Hrx Herr Hh. unfold UpdateSystemHealth.
  rewrite Hrx, Herr, u32_sub_u32_l.
  unfold AUTOMATE_HEART_BEAT_MSG_HEALTH_ON_CHOICE,
    AUTOMATE_HEART_BEAT_MSG_HEALTH_WARNING_CHOICE,
    AUTOMATE_HEART_BEAT_MSG_HEALTH_INIT_CHOICE in *.
  destruct (WATCHDOG_TIMEOUT_MS <? u32 (tick - last_pc_heartbeat_tick c));
    destruct Hh as [Hh | Hh]; repeat (rewrite Hh; simpl); reflexivity.
Qed.

(** C5. A controller that has seen the PC, last at tick 0, and is ON, with
    no actuator fault pending: evaluating health at tick 199 and at tick
    200 leaves ON, at tick 201 gives WARNING (more generally ON up to 200
    and WARNING beyond), and once a fresh PC heartbeat has been recorded
    an evaluation no more than 200 ticks later gives ON again. *)
Theorem watchdog_timeout_is_strict (c : Controller) (b : Brake)
    (hb : automate_heart_beat_msg_t) (t_hb now : Z) :
  pc_heartbeat_received c = true ->
  last_pc_heartbeat_tick c = 0 ->
  node_health c = AUTOMATE_HEART_BEAT_MSG_HEALTH_ON_CHOICE ->
  Brake_HasError b = false ->
  hb_node_id hb = NODE_ID_PC ->
  u32 (now - t_hb) <= WATCHDOG_TIMEOUT_MS ->
  node_health (UpdateSystemHealth c b 199) = AUTOMATE_HEART_BEAT_MSG_HEALTH_ON_CHOICE /\
  node_health (UpdateSystemHealth c b 200) = AUTOMATE_HEART_BEAT_MSG_HEALTH_ON_CHOICE /\
  node_health (UpdateSystemHealth c b 201) = AUTOMATE_HEART_BEAT_MSG_HEALTH_WARNING_CHOICE /\
  (forall t, 0 <= t <= 200 ->
     node_health (UpdateSystemHealth c b t) = AUTOMATE_HEART_BEAT_MSG_HEALTH_ON_CHOICE) /\
  (forall t, 200 < t < 4294967296 ->
     node_health (UpdateSystemHealth c b t) = AUTOMATE_HEART_BEAT_MSG_HEALTH_WARNING_CHOICE) /\
  node_health
    (UpdateSystemHealth (ProcessHeartbeat (UpdateSystemHealth c b 201) hb t_hb) b now)
    = AUTOMATE_HEART_BEAT_MSG_HEALTH_ON_CHOICE.
Proof.
  intros Hrx Hlast Hon Herr Hpc Hwin.
  assert (Hgen : forall t, node_health (UpdateSystemHealth c b t) =
            if WATCHDOG_TIMEOUT_MS <? u32 t
            then AUTOMATE_HEART_BEAT_MSG_HEALTH_WARNING_CHOICE
            else AUTOMATE_HEART_BEAT_MSG_HEALTH_ON_CHOICE).
  { intros t. rewrite UpdateSystemHealth_watchdog by auto.
    rewrite Hlast, Z.sub_0_r. reflexivity. }
  assert (H201 : node_health (UpdateSystemHealth c b 201)
                 = AUTOMATE_HEART_BEAT_MSG_HEALTH_WARNING_CHOICE)
    by (rewrite Hgen; reflexivity).
  repeat split.
  - rewrite Hgen. reflexivity.
  - rewrite Hgen. reflexivity.
  - exact H201.
  - intros t Ht. rewrite Hgen, u32_small by lia.
    unfold WATCHDOG_TIMEOUT_MS. destruct (Z.ltb_spec 200 t); [lia | reflexivity].
  - intros t Ht. rewrite Hgen, u32_small by lia.
    unfold WATCHDOG_TIMEOUT_MS. destruct (Z.ltb_spec 200 t); [reflexivity | lia].
  - unfold ProcessHeartbeat. rewrite Hpc. simpl.
    rewrite UpdateSystemHealth_watchdog; simpl; auto.
    rewrite u32_sub_u32_r.
    destruct (Z.ltb_spec WATCHDOG_TIMEOUT_MS (u32 (now - t_hb))); [lia | reflexivity].
Qed.

Lemma watchdog_timeout_is_strict_witness :
  node_health
    (UpdateSystemHealth
       (ProcessHeartbeat (UpdateSystemHealth Scenario.watching Scenario.at_rest 201)
          Scenario.pc_heartbeat 250)
       Scenario.at_rest 251)
    = AUTOMATE_HEART_BEAT_MSG_HEALTH_ON_CHOICE.
Proof.
  apply (watchdog_timeout_is_strict Scenario.watching Scenario.at_rest
           Scenario.pc_heartbeat 250 251);
    try reflexivity.
  vm_compute. discriminate.
Defined.

(** C6. [UpdateSystemHealth] never leaves FAILURE, whatever the tick and
    whatever has been recorded about the PC; and with the actuator fault
    signal asserted and health below FAILURE it sets FAILURE. *)
Theorem failure_is_latched (c : Controller) (b : Brake) (tick : Z) :
  (node_health c = AUTOMATE_HEART_BEAT_MSG_HEALTH_FAILURE_CHOICE ->
   node_health (UpdateSystemHealth c b tick)
     = AUTOMATE_HEART_BEAT_MSG_HEALTH_FAILURE_CHOICE) /\
  (Brake_HasError b = true ->
   node_health c < AUTOMATE_HEART_BEAT_MSG_HEALTH_FAILURE_CHOICE ->
   node_health (UpdateSystemHealth c b tick)
     = AUTOMATE_HEART_BEAT_MSG_HEALTH_FAILURE_CHOICE).
Proof.
  unfold UpdateSystemHealth,
    AUTOMATE_HEART_BEAT_MSG_HEALTH_ON_CHOICE,
    AUTOMATE_HEART_BEAT_MSG_HEALTH_WARNING_CHOICE,
    AUTOMATE_HEART_BEAT_MSG_HEALTH_INIT_CHOICE,
    AUTOMATE_HEART_BEAT_MSG_HEALTH_FAILURE_CHOICE.
  split.
  - intros Hf. destruct (Brake_HasError b); health_cases.
  - intros Herr Hlt. rewrite Herr. health_cases.
Qed.

Lemma failure_is_latched_witness :
  Brake_HasError Scenario.after_sensor_fault = true /\
  node_health Scenario.watching < AUTOMATE_HEART_BEAT_MSG_HEALTH_FAILURE_CHOICE /\
  node_health (UpdateSystemHealth Scenario.watching Scenario.after_sensor_fault 100)
    = AUTOMATE_HEART_BEAT_MSG_HEALTH_FAILURE_CHOICE.
Proof.
  assert (He : Brake_HasError Scenario.after_sensor_fault = true) by reflexivity.
  assert (Hl : node_health Scenario.watching
               < AUTOMATE_HEART_BEAT_MSG_HEALTH_FAILURE_CHOICE) by reflexivity.
  split; [exact He |]. split; [exact Hl |].
  exact (proj2 (failure_is_latched Scenario.watching Scenario.after_sensor_fault 100)
           He Hl).
Defined.

(** *** The health override *)

(** C9 (as the code has it). [Controller_SetHealth] stores every value
    from 0 to 5, the codec's range for the health byte: the four variants
    and also OFF (0) and CRITICAL_FAILURE (5).  For every larger value the
    controller is left as it was. *)
Theorem SetHealth_accepts_codec_range (c : Controller) (health : Z) :
  (health <= 5 -> Controller_SetHealth c health = set_node_health health c) /\
  (5 < health -> Controller_SetHealth c health = c) /\
  (is_health_variant health = true -> node_health (Controller_SetHealth c health) = health).
Proof.
  unfold Controller_SetHealth, automate_heart_beat_msg_health_is_in_range.
  split; [| split].
  - intros H. destruct (Z.leb_spec health 5); [reflexivity | lia].
  - intros H. destruct (Z.leb_spec health 5); [lia | reflexivity].
  - unfold is_health_variant,
      AUTOMATE_HEART_BEAT_MSG_HEALTH_ON_CHOICE,
      AUTOMATE_HEART_BEAT_MSG_HEALTH_WARNING_CHOICE,
      AUTOMATE_HEART_BEAT_MSG_HEALTH_INIT_CHOICE,
      AUTOMATE_HEART_BEAT_MSG_HEALTH_FAILURE_CHOICE.
    intros H. destruct (Z.leb_spec health 5); [reflexivity |].
    repeat (apply orb_prop in H; destruct H as [H | H]);
      apply Z.eqb_eq in H; lia.
Qed.

Lemma SetHealth_accepts_codec_range_witness :
  5 < 7 /\ Controller_SetHealth controller_boot 7 = controller_boot.
Proof.
  assert (H : 5 < 7) by reflexivity.
  split; [exact H |].
  exact (proj1 (proj2 (SetHealth_accepts_codec_range controller_boot 7)) H).
Defined.

(** C9 (as stated) fails: 5 and 0 are none of INIT, ON, WARNING and
    FAILURE, and the override stores them. *)
Lemma SetHealth_accepts_other_values :
  is_health_variant 5 = false /\
  node_health controller_boot = AUTOMATE_HEART_BEAT_MSG_HEALTH_INIT_CHOICE /\
  node_health (Controller_SetHealth controller_boot 5) = 5 /\
  is_health_variant 0 = false /\
  node_health (Controller_SetHealth controller_boot 0) = 0.
Proof. repeat split; reflexivity. Qed.

(** *** The heartbeat origin *)

Lemma SendHeartbeat_unfold (s : System) (tick : Z) :
  SendHeartbeat s tick =
    mkSystem
      (set_heartbeat_msg_count (u32 (heartbeat_msg_count (ctrl s) + 1)) (ctrl s))
      (brake s)
      (mkDriver (can_rx_buffer (can s))
         (snd (RingBuffer_Put (can_tx_buffer (can s))
                 (mkMsg AUTOMATE_HEART_BEAT_MSG_FRAME_ID
                    (snd (automate_heart_beat_msg_pack (heartbeat_of (ctrl s) tick) 8))
                    8 true)
                 8))).
Proof.
  unfold SendHeartbeat, CAN_Driver_Send. simpl.
  change CAN_TX_BUFFER_SIZE with 8.
  destruct (RingBuffer_Put _ _ 8); reflexivity.
Qed.

(** C10. Whatever value [Controller_SetNodeID] stored, the heartbeat that
    [SendHeartbeat] builds carries 0xF0 as its origin: the structure, the
    frame queued for transmission and its first byte are those built
    without the call, and the controller afterwards differs only by the
    stored identifier. *)
Theorem heartbeat_origin_ignores_node_id (s : System) (v tick : Z) :
  hb_node_id (heartbeat_of (Controller_SetNodeID (ctrl s) v) tick) = NODE_ID_MCU /\
  heartbeat_of (Controller_SetNodeID (ctrl s) v) tick = heartbeat_of (ctrl s) tick /\
  can (SendHeartbeat (mkSystem (Controller_SetNodeID (ctrl s) v) (brake s) (can s)) tick)
    = can (SendHeartbeat s tick) /\
  ctrl (SendHeartbeat (mkSystem (Controller_SetNodeID (ctrl s) v) (brake s) (can s)) tick)
    = Controller_SetNodeID (ctrl (SendHeartbeat s tick)) v /\
  byte_at (snd (automate_heart_beat_msg_pack
                  (heartbeat_of (Controller_SetNodeID (ctrl s) v) tick) 8)) 0 = 240.
Proof.
  rewrite !SendHeartbeat_unfold. simpl. repeat split; reflexivity.
Qed.

(** On a TX buffer with room, the frame appended by [SendHeartbeat] after
    any [Controller_SetNodeID] has the heartbeat identifier and 0xF0 in
    byte 0. *)
Lemma heartbeat_frame_queued (s : System) (v tick : Z) :
  ring_inv (can_tx_buffer (can s)) -> count (can_tx_buffer (can s)) < 8 ->
  exists msg,
    ring_contents
      (can_tx_buffer
         (can (SendHeartbeat
                 (mkSystem (Controller_SetNodeID (ctrl s) v) (brake s) (can s)) tick)))
      = ring_contents (can_tx_buffer (can s)) ++ [msg] /\
    Can.id msg = AUTOMATE_HEART_BEAT_MSG_FRAME_ID /\
    byte_at (Can.data msg) 0 = NODE_ID_MCU.
Proof.
  intros Hinv Hroom. rewrite SendHeartbeat_unfold. simpl.
  eexists. split; [apply CanFacts.contents_Put; assumption |].
  split; reflexivity.
Qed.

End ControllerFacts.

(** * Further properties of the transport *)

Module CanMore.

Import Can Queue CanFacts.

Lemma ring_step_refines (b : CAN_RingBuffer_t) (o : ring_op) :
  ring_inv b ->
  ring_contents (ring_step b o) = queue_step (ring_contents b) o.
Proof.
  intros Hinv. pose proof (contents_length b) as Hlen.
  pose proof Hinv as (Hc & _).
  destruct o as [msg |]; simpl.
  - destruct (Z_lt_le_dec (count b) 8) as [Hlt | Hge].
    + rewrite contents_Put by assumption.
      destruct (Nat.ltb_spec (length (ring_contents b)) 8); [reflexivity | lia].
    + rewrite Put_full by assumption. simpl.
      destruct (Nat.ltb_spec (length (ring_contents b)) 8); [lia | reflexivity].
  - destruct (Z.eq_dec (count b) 0) as [Hz | Hnz].
    + rewrite Get_empty by assumption. simpl.
      rewrite contents_empty by assumption. reflexivity.
    + destruct (contents_Get b Hinv Hnz) as (msg & _ & Hcont).
      rewrite Hcont. reflexivity.
Qed.

Lemma Get_returns_head (b : CAN_RingBuffer_t) :
  ring_inv b -> fst (RingBuffer_Get b 8) = hd_error (ring_contents b).
Proof.
  intros Hinv. destruct (Z.eq_dec (count b) 0) as [Hz | Hnz].
  - rewrite Get_empty by assumption. simpl.
    rewrite contents_empty by assumption. reflexivity.
  - destruct (contents_Get b Hinv Hnz) as (msg & Hfst & Hcont).
    rewrite Hfst, Hcont. reflexivity.
Qed.

(** X1. A ring buffer that satisfies the invariant behaves as a FIFO list
    of capacity 8 under every sequence of puts and gets: the queued
    messages after the sequence are those of the list model, and every
    get returns what the list model returns (the oldest message, or
    nothing when empty); a put on a full buffer drops the new message. *)
Theorem ring_buffer_is_fifo (ops : list ring_op) (b : CAN_RingBuffer_t) :
  ring_inv b ->
  ring_contents (ring_run ops b) = queue_run ops (ring_contents b) /\
  ring_gets ops b = queue_gets ops (ring_contents b).
Proof.
  revert b. unfold ring_run, queue_run.
  induction ops as [| o ops IH]; intros b Hinv; simpl; [auto |].
  pose proof (ring_step_inv b o Hinv) as Hinv'.
  pose proof (ring_step_refines b o Hinv) as Href.
  destruct (IH _ Hinv') as [IH1 IH2]. rewrite Href in IH1, IH2.
  split; [exact IH1 |].
  destruct o as [msg |]; [exact IH2 |].
  rewrite Get_returns_head by assumption. f_equal. exact IH2.
Qed.

Lemma ring_buffer_is_fifo_witness :
  ring_gets (OpPut zero_msg :: Scenario.nine_puts_one_get) ring_init
    = [Some zero_msg].
Proof.
  assert (H : ring_inv ring_init).
  { unfold ring_inv; simpl. repeat split; lia. }
  exact (proj2 (ring_buffer_is_fifo (OpPut zero_msg :: Scenario.nine_puts_one_get)
                  ring_init H)).
Defined.

(** *** The outbound drain, for every behaviour of the hardware *)

Lemma Get_cases (tx : CAN_RingBuffer_t) :
  ring_inv tx ->
  (ring_contents tx = [] /\ RingBuffer_Get tx 8 = (None, tx)) \/
  (exists msg tx', RingBuffer_Get tx 8 = (Some msg, tx') /\
     ring_contents tx = msg :: ring_contents tx' /\
     ring_inv tx' /\ count tx' < 8).
Proof.
  intros Hinv. destruct (Z.eq_dec (count tx) 0) as [Hz | Hnz].
  - left. split; [apply contents_empty | apply Get_empty]; assumption.
  - right. destruct (contents_Get tx Hinv Hnz) as (msg & Hfst & Hcont).
    pose proof (Get_inv tx Hinv) as Hinv'.
    destruct (RingBuffer_Get tx 8) as [o tx'] eqn:Hget. simpl in *. subst o.
    exists msg, tx'.
    split; [reflexivity |]. split; [exact Hcont |]. split; [exact Hinv' |].
    pose proof (contents_length tx) as H1. pose proof (contents_length tx') as H2.
    rewrite Hcont in H1. simpl in H1.
    destruct Hinv as (? & _), Hinv' as (? & _). lia.
Qed.

Lemma Transmit_loop_outcome (fuel : nat) :
  forall tx hal bus, ring_inv tx ->
  (length (ring_contents tx) < fuel)%nat ->
  exists r, Transmit_loop fuel tx hal bus = Some r /\
    ring_inv (drain_tx r) /\
    drain_bus r = bus ++ take (leading_accepts hal) (ring_contents tx) /\
    ring_contents (drain_tx r)
      = requeued (drop (leading_accepts hal) (ring_contents tx)) /\
    drain_hal r =
      if (length (ring_contents tx) <=? leading_accepts hal)%nat
      then drop (length (ring_contents tx)) hal
      else drop (S (leading_accepts hal)) hal.
Proof.
  induction fuel as [| fuel IH]; intros tx hal bus Hinv Hfuel; [lia |].
  simpl. change CAN_TX_BUFFER_SIZE with 8.
  destruct (Get_cases tx Hinv)
    as [[Hnil Hget] | (msg & tx' & Hget & Hcont & Hinv' & Hroom)];
    rewrite Hget.
  - eexists. split; [reflexivity |]. simpl. rewrite Hnil. simpl.
    rewrite take_nil, drop_nil, app_nil_r.
    split; [exact Hinv |]. split; [reflexivity |].
    split; reflexivity.
  - rewrite Hcont in *. simpl in Hfuel.
    destruct hal as [| [|] hal'].
    + eexists. split; [reflexivity |]. simpl.
      rewrite app_nil_r.
      split; [apply Put_inv, Hinv' |]. split; [reflexivity |].
      split; [apply contents_Put; assumption | reflexivity].
    + destruct (IH tx' hal' (bus ++ [msg]) Hinv' ltac:(lia))
        as (r & Hr & Hri & Hbus & Htx & Hhal).
      exists r. split; [exact Hr |]. split; [exact Hri |].
      simpl. rewrite Hbus, <- app_assoc.
      split; [reflexivity |]. split; assumption.
    + eexists. split; [reflexivity |]. simpl.
      rewrite app_nil_r.
      split; [apply Put_inv, Hinv' |]. split; [reflexivity |].
      split; [apply contents_Put; assumption | reflexivity].
Qed.

(** X2. [CAN_Driver_Transmit] on a buffer that satisfies the invariant
    always returns.  If the hardware accepts k sends before refusing one,
    the first k queued frames reach the bus in queue order; when frames
    are left, the refused one is put back behind the others; no frame is
    lost or duplicated, the invariant still holds, and the drain makes one
    hardware call per frame sent plus one for the refusal. *)
Theorem drain_outcome (tx : CAN_RingBuffer_t) (hal : Hal) :
  ring_inv tx ->
  exists r, CAN_Driver_Transmit tx hal = Some r /\
    ring_inv (drain_tx r) /\
    drain_bus r = take (leading_accepts hal) (ring_contents tx) /\
    ring_contents (drain_tx r)
      = requeued (drop (leading_accepts hal) (ring_contents tx)) /\
    drain_hal r =
      if (length (ring_contents tx) <=? leading_accepts hal)%nat
      then drop (length (ring_contents tx)) hal
      else drop (S (leading_accepts hal)) hal.
Proof.
  intros Hinv. unfold CAN_Driver_Transmit.
  apply (Transmit_loop_outcome 257 tx hal [] Hinv).
  rewrite contents_length. destruct Hinv as (? & _). lia.
Qed.

Lemma drain_outcome_witness :
  exists r, CAN_Driver_Transmit (can_tx_buffer Scenario.two_queued) [true; false] = Some r /\
    map Can.id (drain_bus r) = [1] /\
    map Can.id (ring_contents (drain_tx r)) = [2] /\
    drain_hal r = [].
Proof.
  assert (H : ring_inv (can_tx_buffer Scenario.two_queued)).
  { unfold ring_inv. vm_compute.
    repeat split; solve [reflexivity | intro; discriminate]. }
  destruct (drain_outcome (can_tx_buffer Scenario.two_queued) [true; false] H)
    as (r & Hr & _ & Hbus & Htx & Hhal).
  exists r. split; [exact Hr |].
  rewrite Hbus, Htx, Hhal. repeat split; reflexivity.
Defined.

(** *** Queueing a frame for transmission *)

(** X3. [CAN_Driver_Send] returns true exactly when the data pointer is
    not NULL, the length is at most 8 and the TX buffer has room; a call
    that returns false leaves the driver as it was, and no call touches
    the RX buffer. *)
Theorem Send_refusals (d : Driver) (msg_id : Z) (payload : option (list Z)) (n : Z) :
  (fst (CAN_Driver_Send d msg_id payload n) = true <->
     payload <> None /\ n <= 8 /\ count (can_tx_buffer d) < 8) /\
  (fst (CAN_Driver_Send d msg_id payload n) = false ->
     snd (CAN_Driver_Send d msg_id payload n) = d) /\
  can_rx_buffer (snd (CAN_Driver_Send d msg_id payload n)) = can_rx_buffer d.
Proof.
  unfold CAN_Driver_Send. change CAN_TX_BUFFER_SIZE with 8.
  destruct payload as [bytes |]; simpl.
  2: { split; [| auto]. split; [discriminate | intros (H & _); congruence]. }
  destruct (Z.ltb_spec 8 n); simpl.
  { split; [| auto]. split; [discriminate | intros (_ & H1 & _); lia]. }
  destruct (Z_lt_le_dec (count (can_tx_buffer d)) 8) as [Hroom | Hfull].
  - rewrite Put_room by assumption. simpl.
    split; [| split; [discriminate | reflexivity]].
    split; [intros _; repeat split; [discriminate | lia | lia] | reflexivity].
  - rewrite Put_full by assumption. simpl.
    split; [| split; [intros _; destruct d; reflexivity | reflexivity]].
    split; [discriminate | intros (_ & _ & H1); lia].
Qed.

Lemma Send_refusals_witness :
  snd (CAN_Driver_Send Scenario.two_queued 9 None 0) = Scenario.two_queued.
Proof.
  exact (proj1 (proj2 (Send_refusals Scenario.two_queued 9 None 0)) eq_refl).
Defined.

Lemma copy_payload_spec (bytes : list Z) (n : Z) :
  0 <= n <= 8 -> (Z.to_nat n <= length bytes)%nat ->
  length (copy_payload bytes n) = 8%nat /\
  (forall i, (i < Z.to_nat n)%nat -> copy_payload bytes n !! i = bytes !! i) /\
  (forall i, (Z.to_nat n <= i < 8)%nat -> copy_payload bytes n !! i = Some 0).
Proof.
  intros Hn Hlen. unfold copy_payload.
  assert (Htake : length (take (Z.to_nat n) bytes) = Z.to_nat n)
    by (rewrite length_take; lia).
  split; [| split].
  - rewrite length_app, Htake, length_replicate. lia.
  - intros i Hi. rewrite lookup_app_l by lia. apply lookup_take_lt. lia.
  - intros i Hi. rewrite lookup_app_r by lia. rewrite Htake.
    apply lookup_replicate_2. lia.
Qed.

(** X4. A successful [CAN_Driver_Send] appends one frame behind the frames
    already queued: it carries the identifier and the length given, is
    marked extended, and its data are 8 bytes, the first [len] copied from
    the caller and the others zero. *)
Theorem Send_queues_padded_frame (d : Driver) (msg_id : Z) (bytes : list Z) (n : Z) :
  ring_inv (can_tx_buffer d) -> count (can_tx_buffer d) < 8 ->
  0 <= n <= 8 -> (Z.to_nat n <= length bytes)%nat ->
  exists msg,
    fst (CAN_Driver_Send d msg_id (Some bytes) n) = true /\
    ring_contents (can_tx_buffer (snd (CAN_Driver_Send d msg_id (Some bytes) n)))
      = ring_contents (can_tx_buffer d) ++ [msg] /\
    Can.id msg = msg_id /\ Can.len msg = n /\ is_extended msg = true /\
    length (Can.data msg) = 8%nat /\
    (forall i, (i < Z.to_nat n)%nat -> Can.data msg !! i = bytes !! i) /\
    (forall i, (Z.to_nat n <= i < 8)%nat -> Can.data msg !! i = Some 0).
Proof.
  intros Hinv Hroom Hn Hlen.
  pose proof (contents_Put (can_tx_buffer d)
                (mkMsg msg_id (copy_payload bytes n) n true) Hinv Hroom) as Hc.
  unfold CAN_Driver_Send. change CAN_TX_BUFFER_SIZE with 8.
  destruct (Z.ltb_spec 8 n); [lia |].
  rewrite Put_room in * by assumption. simpl in *.
  eexists. split; [reflexivity |]. split; [exact Hc |]. simpl.
  do 3 (split; [reflexivity |]). apply copy_payload_spec; assumption.
Qed.

Lemma Send_queues_padded_frame_witness :
  exists msg,
    ring_contents (can_tx_buffer
      (snd (CAN_Driver_Send CAN_Driver_Init 5 (Some [7; 9; 11]) 2))) = [msg] /\
    Can.data msg !! 1%nat = Some 9 /\ Can.data msg !! 2%nat = Some 0.
Proof.
  assert (Hi : ring_inv (can_tx_buffer CAN_Driver_Init)).
  { unfold ring_inv. vm_compute.
    repeat split; solve [reflexivity | intro; discriminate]. }
  assert (Hr : count (can_tx_buffer CAN_Driver_Init) < 8) by reflexivity.
  assert (Hn : 0 <= 2 <= 8) by lia.
  assert (Hl : (Z.to_nat 2 <= length [7; 9; 11])%nat) by (simpl; lia).
  destruct (Send_queues_padded_frame CAN_Driver_Init 5 [7; 9; 11] 2 Hi Hr Hn Hl)
    as (msg & _ & Hc & _ & _ & _ & _ & Hlow & Hhigh).
  exists msg. split; [exact Hc |].
  split; [rewrite Hlow by (simpl; lia); reflexivity |].
  apply Hhigh. simpl. lia.
Defined.

(** *** Reception *)

(** X5. [CAN_Driver_RxCallback] never touches the TX buffer.  When the
    peripheral has no frame, or the RX buffer is full, the driver is
    left as it was (the new frame is dropped).  Otherwise one frame is
    appended to the RX queue, with its length limited to 8. *)
Theorem RxCallback_outcome (d : Driver) (frame : option (Z * bool * Z * list Z)) :
  ring_inv (can_rx_buffer d) ->
  can_tx_buffer (CAN_Driver_RxCallback d frame) = can_tx_buffer d /\
  (frame = None \/ count (can_rx_buffer d) = 8 ->
     CAN_Driver_RxCallback d frame = d) /\
  (forall ident ext dlc bytes,
     frame = Some (ident, ext, dlc, bytes) -> count (can_rx_buffer d) < 8 ->
     exists msg,
       ring_contents (can_rx_buffer (CAN_Driver_RxCallback d frame))
         = ring_contents (can_rx_buffer d) ++ [msg] /\
       Can.id msg = ident /\ is_extended msg = ext /\
       Can.len msg = Z.min 8 (u8 dlc)).
Proof.
  intros Hinv. split; [| split].
  - destruct frame as [[[[ident ext] dlc] bytes] |]; reflexivity.
  - intros [-> | Hfull]; [reflexivity |].
    destruct frame as [[[[ident ext] dlc] bytes] |]; [| reflexivity].
    unfold CAN_Driver_RxCallback. change CAN_RX_BUFFER_SIZE with 8.
    rewrite Put_full by lia. destruct d; reflexivity.
  - intros ident ext dlc bytes -> Hroom.
    unfold CAN_Driver_RxCallback. change CAN_RX_BUFFER_SIZE with 8. simpl.
    eexists. split; [apply contents_Put; assumption |]. simpl.
    split; [reflexivity |]. split; [reflexivity |].
    destruct (Z.ltb_spec 8 (u8 dlc)); lia.
Qed.

Lemma RxCallback_outcome_witness :
  can_tx_buffer (CAN_Driver_RxCallback CAN_Driver_Init (Some (3, true, 15, [1; 2])))
    = can_tx_buffer CAN_Driver_Init.
Proof.
  assert (Hi : ring_inv (can_rx_buffer CAN_Driver_Init)).
  { unfold ring_inv. vm_compute.
    repeat split; solve [reflexivity | intro; discriminate]. }
  exact (proj1 (RxCallback_outcome CAN_Driver_Init (Some (3, true, 15, [1; 2])) Hi)).
Defined.

(** *** Queue depth and reset *)



(** X7. Clearing a buffer empties it whatever its indices and count were:
    afterwards the invariant holds, a get returns nothing, a drain sends
    nothing and makes no hardware call, and the other buffer is as
    before. *)
Theorem clear_empties (d : Driver) :
  length (buffer (can_tx_buffer d)) = 8%nat ->
  length (buffer (can_rx_buffer d)) = 8%nat ->
  (ring_inv (can_tx_buffer (CAN_Driver_ClearTxBuffer d)) /\
   ring_contents (can_tx_buffer (CAN_Driver_ClearTxBuffer d)) = [] /\
   can_rx_buffer (CAN_Driver_ClearTxBuffer d) = can_rx_buffer d /\
   forall hal,
     CAN_Driver_Transmit (can_tx_buffer (CAN_Driver_ClearTxBuffer d)) hal
       = Some (mkDrain (can_tx_buffer (CAN_Driver_ClearTxBuffer d)) hal [])) /\
  (ring_inv (can_rx_buffer (CAN_Driver_ClearRxBuffer d)) /\
   ring_contents (can_rx_buffer (CAN_Driver_ClearRxBuffer d)) = [] /\
   can_tx_buffer (CAN_Driver_ClearRxBuffer d) = can_tx_buffer d /\
   CAN_Driver_HasMessage (CAN_Driver_ClearRxBuffer d) = false /\
   CAN_Driver_Get (CAN_Driver_ClearRxBuffer d) = (None, CAN_Driver_ClearRxBuffer d)).
Proof.
  intros Htx Hrx. split.
  - split; [unfold ring_inv; simpl; repeat split; try lia; assumption |].
    repeat split.
  - split; [unfold ring_inv; simpl; repeat split; try lia; assumption |].
    repeat split.
Qed.

Lemma clear_empties_witness :
  ring_contents (can_tx_buffer (CAN_Driver_ClearTxBuffer Scenario.two_queued)) = [].
Proof.
  exact (proj1 (proj2 (proj1
    (clear_empties Scenario.two_queued eq_refl eq_refl)))).
Defined.

End CanMore.

(** * Further properties of the actuator *)

Module BrakeMore.

Import Brake Spec Readings BrakeFacts.

(** *** Invalid readings *)

Lemma UpdatePosition_invalid (b : Brake) (v : Z) :
  invalid_reading v ->
  Brake_UpdatePosition b (Some v) =
    let b1 := set_position_error_count (u8 (position_error_count b + 1)) b in
    if MAX_POSITION_ERRORS <=? u8 (position_error_count b + 1)
    then Motor_Stop (set_state BRAKE_STATE_STOPPED b1) else b1.
Proof.
  unfold invalid_reading, Brake_UpdatePosition. simpl. intros ->. reflexivity.
Qed.

Lemma UpdatePosition_invalid_fields (b : Brake) (v : Z) :
  invalid_reading v ->
  position_error_count (Brake_UpdatePosition b (Some v))
    = u8 (position_error_count b + 1) /\
  current_position (Brake_UpdatePosition b (Some v)) = current_position b /\
  (state b = BRAKE_STATE_STOPPED ->
   state (Brake_UpdatePosition b (Some v)) = BRAKE_STATE_STOPPED).
Proof.
  intros Hv. rewrite (UpdatePosition_invalid b v Hv). cbv zeta.
  destruct (_ <=? _); simpl; auto.
Qed.

Lemma invalid_run_counter (vs : list Z) :
  forall b, Forall invalid_reading vs ->
  0 <= position_error_count b < 256 ->
  position_error_count (brake_run (sample_all vs) b)
    = u8 (position_error_count b + Z.of_nat (length vs)) /\
  current_position (brake_run (sample_all vs) b) = current_position b /\
  (state b = BRAKE_STATE_STOPPED ->
   state (brake_run (sample_all vs) b) = BRAKE_STATE_STOPPED).
Proof.
  unfold brake_run.
  induction vs as [| v vs IH]; intros b Hall Hr.
  - simpl. rewrite Z.add_0_r, u8_small by assumption. auto.
  - apply Forall_cons in Hall as [Hv Hall]. simpl foldl.
    destruct (UpdatePosition_invalid_fields b v Hv) as (Hc1 & Hp1 & Hs1).
    destruct (IH (Brake_UpdatePosition b (Some v)) Hall) as (Hc & Hp & Hs).
    { rewrite Hc1. apply u8_range. }
    rewrite Hc, Hp, Hc1, Hp1. split; [| split; [reflexivity | auto]].
    unfold u8. rewrite Zplus_mod_idemp_l. f_equal. simpl length. lia.
Qed.

Lemma invalid_run_short (vs : list Z) :
  forall b, Forall invalid_reading vs ->
  0 <= position_error_count b ->
  position_error_count b + Z.of_nat (length vs) < 256 ->
  (position_error_count b + Z.of_nat (length vs) < MAX_POSITION_ERRORS ->
   brake_run (sample_all vs) b
     = set_position_error_count
         (position_error_count b + Z.of_nat (length vs)) b) /\
  (MAX_POSITION_ERRORS <= position_error_count b + Z.of_nat (length vs) ->
   (1 <= length vs)%nat ->
   state (brake_run (sample_all vs) b) = BRAKE_STATE_STOPPED /\
   motor_stopped (brake_run (sample_all vs) b)).
Proof.
  unfold brake_run.
  induction vs as [| v vs IH]; intros b Hall H0 Hlt.
  - simpl. split; [| lia]. intros _. rewrite Z.add_0_r. destruct b; reflexivity.
  - apply Forall_cons in Hall as [Hv Hall]. simpl foldl.
    rewrite (UpdatePosition_invalid b v Hv). cbv zeta.
    simpl length in *.
    rewrite u8_small by lia.
    destruct (Z.leb_spec MAX_POSITION_ERRORS (position_error_count b + 1)) as [Hge | Hsm].
    + split; [unfold MAX_POSITION_ERRORS in *; lia |]. intros _ _.
      destruct (invalid_run_counter vs
                  (Motor_Stop (set_state BRAKE_STATE_STOPPED
                     (set_position_error_count (position_error_count b + 1) b)))
                  Hall) as (_ & _ & Hs); [simpl; lia |].
      unfold brake_run in Hs. split; [apply Hs; reflexivity |].
      destruct vs as [| w vs']; [split; reflexivity |].
      specialize (IH (Motor_Stop (set_state BRAKE_STATE_STOPPED
                       (set_position_error_count (position_error_count b + 1) b)))
                    Hall).
      simpl position_error_count in IH.
      destruct IH as [_ IH]; [lia | simpl length in *; lia |].
      apply IH; [unfold MAX_POSITION_ERRORS in *; simpl length in *; lia
                | simpl; lia].
    + specialize (IH (set_position_error_count (position_error_count b + 1) b) Hall).
      simpl position_error_count in IH.
      destruct IH as [IH1 IH2]; [lia | lia |].
      split.
      * intros Hs. rewrite IH1 by lia.
        unfold set_position_error_count; simpl. f_equal. lia.
      * intros Hge _. destruct vs as [| w vs'].
        { simpl length in *. lia. }
        apply IH2; [lia | simpl; lia].
Qed.

(** X8. Consecutive invalid readings, starting with the error counter at
    0: fewer than 10 change nothing but the counter; from the tenth on the
    state is STOPPED, the motor is stopped and [Brake_HasError] is true;
    the stored position is never replaced by an invalid reading.  The
    counter is 8 bits wide: it equals the number of readings modulo 256. *)
Theorem invalid_readings_threshold (b : Brake) (vs : list Z) :
  position_error_count b = 0 -> Forall invalid_reading vs ->
  position_error_count (brake_run (sample_all vs) b) = u8 (Z.of_nat (length vs)) /\
  current_position (brake_run (sample_all vs) b) = current_position b /\
  ((length vs < 10)%nat ->
     brake_run (sample_all vs) b
       = set_position_error_count (Z.of_nat (length vs)) b /\
     Brake_HasError (brake_run (sample_all vs) b) = false) /\
  ((10 <= length vs)%nat ->
     state (brake_run (sample_all vs) b) = BRAKE_STATE_STOPPED) /\
  ((10 <= length vs < 256)%nat ->
     Brake_HasError (brake_run (sample_all vs) b) = true /\
     motor_stopped (brake_run (sample_all vs) b)).
Proof.
  intros Hz Hall.
  destruct (invalid_run_counter vs b Hall) as (Hc & Hp & _); [lia |].
  split; [| split; [exact Hp |]].
  { rewrite Hc, Hz. reflexivity. }
  split; [| split].
  - intros Hlen.
    destruct (invalid_run_short vs b Hall) as [Hs _]; [lia | lia |].
    rewrite Hs by (unfold MAX_POSITION_ERRORS; lia). rewrite Hz, Z.add_0_l.
    split; [reflexivity |].
    unfold Brake_HasError, MAX_POSITION_ERRORS. simpl.
    destruct (Z.leb_spec 10 (Z.of_nat (length vs))); [lia | reflexivity].
  - intros Hlen.
    rewrite <- (take_drop 10 vs). unfold sample_all, brake_run.
    rewrite map_app, foldl_app.
    assert (Hall1 : Forall invalid_reading (take 10 vs)) by (apply Forall_take, Hall).
    assert (Hall2 : Forall invalid_reading (drop 10 vs)) by (apply Forall_drop, Hall).
    assert (Hl : length (take 10 vs) = 10%nat) by (rewrite length_take; lia).
    destruct (invalid_run_short (take 10 vs) b Hall1) as [_ Hst];
      [lia | lia |].
    destruct Hst as [Hst _]; [unfold MAX_POSITION_ERRORS; lia | lia |].
    apply (invalid_run_counter (drop 10 vs)); [assumption | | assumption].
    destruct (invalid_run_counter (take 10 vs) b Hall1) as (Hc1 & _); [lia |].
    unfold brake_run, sample_all in Hc1. rewrite Hc1. apply u8_range.
  - intros Hlen.
    destruct (invalid_run_short vs b Hall) as [_ Hst]; [lia | lia |].
    destruct Hst as [_ Hm]; [unfold MAX_POSITION_ERRORS; lia | lia |].
    split; [| exact Hm].
    unfold Brake_HasError, MAX_POSITION_ERRORS. rewrite Hc, Hz.
    rewrite u8_small by lia.
    destruct (Z.leb_spec 10 (0 + Z.of_nat (length vs))); [reflexivity | lia].
Qed.

Lemma invalid_readings_threshold_witness :
  state (brake_run (sample_all (replicate 256 4095)) Scenario.at_rest)
    = BRAKE_STATE_STOPPED /\
  position_error_count (brake_run (sample_all (replicate 256 4095)) Scenario.at_rest)
    = 0.
Proof.
  assert (Hz : position_error_count Scenario.at_rest = 0) by reflexivity.
  assert (Hall : Forall invalid_reading (replicate 256 4095)).
  { apply Forall_replicate. reflexivity. }
  destruct (invalid_readings_threshold Scenario.at_rest (replicate 256 4095) Hz Hall)
    as (Hc & _ & _ & Hs & _).
  split.
  - apply Hs. rewrite length_replicate. lia.
  - rewrite Hc, length_replicate. reflexivity.
Defined.

(** X9. In STOPPED a single valid reading resets the error counter: the
    state stays STOPPED, but [Brake_HasError] is false again and the next
    PUSH or RELEASE command is accepted, without [Brake_ClearError]. *)
Theorem valid_reading_reopens_commands (b : Brake) (adc : option Z) (tick : Z) :
  state b = BRAKE_STATE_STOPPED ->
  IsPositionValid (ADC_ReadPosition b adc) = true ->
  state (Brake_UpdatePosition b adc) = BRAKE_STATE_STOPPED /\
  Brake_HasError (Brake_UpdatePosition b adc) = false /\
  current_position (Brake_UpdatePosition b adc) = ADC_ReadPosition b adc /\
  state (Brake_ProcessCommand (Brake_UpdatePosition b adc)
           AUTOMATE_LEFT_BRAKE_CMD_BRAKE_STATE_PUSH_CHOICE tick)
    = BRAKE_STATE_PUSHING /\
  state (Brake_ProcessCommand (Brake_UpdatePosition b adc)
           AUTOMATE_LEFT_BRAKE_CMD_BRAKE_STATE_RELEASE_CHOICE tick)
    = BRAKE_STATE_RELEASING.
Proof.
  intros Hs Hv.
  assert (Hu : Brake_UpdatePosition b adc =
                 set_position_error_count 0
                   (set_app_current_position (ADC_ReadPosition b adc)
                     (set_current_position (ADC_ReadPosition b adc) b))).
  { unfold Brake_UpdatePosition. rewrite Hv. reflexivity. }
  rewrite Hu. split; [exact Hs |]. split; [reflexivity |].
  split; [reflexivity |].
  split; [apply ProcessCommand_push | apply ProcessCommand_release];
    simpl; try exact Hs; reflexivity.
Qed.

Lemma valid_reading_reopens_commands_witness :
  state (Brake_ProcessCommand
           (Brake_UpdatePosition Scenario.after_sensor_fault (Some 2000))
           AUTOMATE_LEFT_BRAKE_CMD_BRAKE_STATE_PUSH_CHOICE 700)
    = BRAKE_STATE_PUSHING.
Proof.
  exact (proj1 (proj2 (proj2 (proj2
    (valid_reading_reopens_commands Scenario.after_sensor_fault (Some 2000) 700
       eq_refl eq_refl))))).
Defined.

(** *** The periodic update *)

Lemma UpdateOperationEstimate_frame (b : Brake) (tick : Z) :
  exists e, UpdateOperationEstimate b tick = set_estimated_operation_time_ms e b.
Proof.
  unfold UpdateOperationEstimate.
  assert (Hid : b = set_estimated_operation_time_ms (estimated_operation_time_ms b) b)
    by (destruct b; reflexivity).
  destruct (state b); simpl; eauto;
    (destruct (0 <? elapsed_since b tick); [| eauto]);
    match goal with |- context [if ?c then _ else _] => destruct c end; eauto.
Qed.

(** X10. After [Brake_Update] the motor outputs agree with the state: in
    PUSHING the driver is enabled forwards at 80 percent, in RELEASING
    backwards at 80 percent, and in RELEASED, PUSHED and STOPPED the motor
    is stopped.  The update changes neither the stored position, nor the
    error counter, nor the target, nor the start tick. *)
Theorem Update_motor_follows_state (b : Brake) (tick : Z) :
  motor (Brake_Update b tick) =
    match state (Brake_Update b tick) with
    | BRAKE_STATE_PUSHING => mkMotor true MOTOR_DUTY_PUSH
    | BRAKE_STATE_RELEASING => mkMotor false MOTOR_DUTY_RELEASE
    | _ => mkMotor false 0
    end /\
  current_position (Brake_Update b tick) = current_position b /\
  position_error_count (Brake_Update b tick) = position_error_count b /\
  target_position (Brake_Update b tick) = target_position b /\
  operation_start_tick (Brake_Update b tick) = operation_start_tick b.
Proof.
  unfold Brake_Update.
  destruct (UpdateOperationEstimate_frame b tick) as (e & ->).
  destruct (state b) eqn:Hs; simpl;
    repeat match goal with
    | |- context [if ?c then _ else _] => destruct c; simpl
    end; rewrite ?Hs; auto.
Qed.

(** X11. The state after [Brake_Update].  The timeout is tested first and
    is strict: an operation is stopped when more than 5000 ticks have
    passed since the command, also when the position has reached the
    target by then.  Within the time limit PUSHING becomes PUSHED at
    position 3700 or above and RELEASING becomes RELEASED at 300 or below.
    RELEASED, PUSHED and STOPPED are kept, with the estimate set to 0. *)
Theorem Update_next_state (b : Brake) (tick : Z) :
  state (Brake_Update b tick) =
    match state b with
    | BRAKE_STATE_PUSHING =>
        if 5000 <? elapsed_since b tick then BRAKE_STATE_STOPPED
        else if 3700 <=? current_position b then BRAKE_STATE_PUSHED
        else BRAKE_STATE_PUSHING
    | BRAKE_STATE_RELEASING =>
        if 5000 <? elapsed_since b tick then BRAKE_STATE_STOPPED
        else if current_position b <=? 300 then BRAKE_STATE_RELEASED
        else BRAKE_STATE_RELEASING
    | st => st
    end /\
  (in_transit b = false ->
     estimated_operation_time_ms (Brake_Update b tick) = 0) /\
  (in_transit b = true -> 5000 < elapsed_since b tick ->
     estimated_operation_time_ms (Brake_Update b tick)
       = estimated_operation_time_ms b).
Proof.
  unfold Brake_Update, in_transit.
  change POSITION_TIMEOUT_MS with 5000.
  change (POSITION_PUSHED - POSITION_TOLERANCE) with 3700.
  change (POSITION_RELEASED + POSITION_TOLERANCE) with 300.
  destruct (UpdateOperationEstimate_frame b tick) as (e & ->).
  destruct (state b) eqn:Hs; simpl;
    try (split; [exact Hs | split; [reflexivity | discriminate]]).
  - destruct (Z.ltb_spec 5000 (elapsed_since b tick)); simpl.
    + split; [reflexivity | split; [discriminate | reflexivity]].
    + split; [| split; [discriminate | lia]].
      destruct (current_position b <=? 300); simpl; [reflexivity | exact Hs].
  - destruct (Z.ltb_spec 5000 (elapsed_since b tick)); simpl.
    + split; [reflexivity | split; [discriminate | reflexivity]].
    + split; [| split; [discriminate | lia]].
      destruct (3700 <=? current_position b); simpl; [reflexivity | exact Hs].
Qed.

Lemma Update_next_state_witness :
  estimated_operation_time_ms (Brake_Update Scenario.at_rest 5) = 0.
Proof.
  exact (proj1 (proj2 (Update_next_state Scenario.at_rest 5)) eq_refl).
Defined.

(** *** Commands *)

(** X12. Commands are idempotent: processing the same command value twice
    in a row, at any two ticks, leaves the actuator as after the first
    one, so a repeated PUSH does not restart the operation timer.  A
    value that is neither PUSH nor RELEASE changes nothing, and no
    command touches the motor, the stored position or the error
    counter. *)
Theorem command_idempotent (b : Brake) (cmd t1 t2 : Z) :
  Brake_ProcessCommand (Brake_ProcessCommand b cmd t1) cmd t2
    = Brake_ProcessCommand b cmd t1 /\
  (cmd <> AUTOMATE_LEFT_BRAKE_CMD_BRAKE_STATE_PUSH_CHOICE ->
   cmd <> AUTOMATE_LEFT_BRAKE_CMD_BRAKE_STATE_RELEASE_CHOICE ->
   Brake_ProcessCommand b cmd t1 = b) /\
  motor (Brake_ProcessCommand b cmd t1) = motor b /\
  current_position (Brake_ProcessCommand b cmd t1) = current_position b /\
  position_error_count (Brake_ProcessCommand b cmd t1) = position_error_count b.
Proof.
  unfold Brake_ProcessCommand,
    AUTOMATE_LEFT_BRAKE_CMD_BRAKE_STATE_PUSH_CHOICE,
    AUTOMATE_LEFT_BRAKE_CMD_BRAKE_STATE_RELEASE_CHOICE.
  destruct (Z.eqb_spec cmd 1) as [-> | Hp];
    [| destruct (Z.eqb_spec cmd 0) as [-> | Hr]];
    destruct (state b) eqn:Hs; simpl;
    destruct (MAX_POSITION_ERRORS <=? position_error_count b) eqn:Hc; simpl;
    rewrite ?Hs, ?Hc; simpl; rewrite ?Hs, ?Hc; simpl;
    repeat split; try reflexivity; try congruence.
Qed.

Lemma command_idempotent_witness :
  Brake_ProcessCommand Scenario.at_rest 5 40 = Scenario.at_rest.
Proof.
  refine (proj1 (proj2 (command_idempotent Scenario.at_rest 5 40 41)) _ _);
    vm_compute; discriminate.
Defined.

(** *** Position in percent *)

Lemma GetPositionPercent_middle (b : Brake) :
  200 < current_position b < 3800 ->
  Brake_GetPositionPercent b = (current_position b - 200) * 100 / 3600.
Proof.
  intros H. unfold Brake_GetPositionPercent.
  change POSITION_RELEASED with 200. change POSITION_PUSHED with 3800.
  destruct (Z.leb_spec (current_position b) 200); [lia |].
  destruct (Z.leb_spec 3800 (current_position b)); [lia |].
  change (3800 - 200) with 3600.
  apply u8_small.
  assert (0 <= (current_position b - 200) * 100 / 3600 < 100); [| lia].
  split; [apply Z.div_pos; lia | apply Z.div_lt_upper_bound; lia].
Qed.

Lemma GetPositionPercent_range (b : Brake) :
  0 <= Brake_GetPositionPercent b <= 100.
Proof.
  destruct (Z_le_gt_dec (current_position b) 200) as [Hlo | Hlo].
  { unfold Brake_GetPositionPercent. change POSITION_RELEASED with 200.
    destruct (Z.leb_spec (current_position b) 200); lia. }
  destruct (Z_le_gt_dec 3800 (current_position b)) as [Hhi | Hhi].
  { unfold Brake_GetPositionPercent.
    change POSITION_RELEASED with 200. change POSITION_PUSHED with 3800.
    destruct (Z.leb_spec (current_position b) 200); [lia |].
    destruct (Z.leb_spec 3800 (current_position b)); lia. }
  rewrite GetPositionPercent_middle by lia.
  split; [apply Z.div_pos; lia |].
  assert ((current_position b - 200) * 100 / 3600 < 100); [| lia].
  apply Z.div_lt_upper_bound; lia.
Qed.

(** X13. [Brake_GetPositionPercent] is between 0 and 100 for every stored
    position, is 0 up to the released reference 200 and 100 from the
    pushed reference 3800 on, rounds down in between, and never decreases
    when the position increases. *)
Theorem position_percent_monotone (b1 b2 : Brake) :
  current_position b1 <= current_position b2 ->
  0 <= Brake_GetPositionPercent b1 /\
  Brake_GetPositionPercent b1 <= Brake_GetPositionPercent b2 /\
  Brake_GetPositionPercent b2 <= 100 /\
  (current_position b1 <= 200 -> Brake_GetPositionPercent b1 = 0) /\
  (3800 <= current_position b2 -> Brake_GetPositionPercent b2 = 100) /\
  (200 < current_position b1 < 3800 ->
     Brake_GetPositionPercent b1 = (current_position b1 - 200) * 100 / 3600).
Proof.
  intros Hle.
  pose proof (GetPositionPercent_range b1) as R1.
  pose proof (GetPositionPercent_range b2) as R2.
  assert (Hlow : forall b, current_position b <= 200 -> Brake_GetPositionPercent b = 0).
  { intros b H. unfold Brake_GetPositionPercent. change POSITION_RELEASED with 200.
    destruct (Z.leb_spec (current_position b) 200); [reflexivity | lia]. }
  assert (Hhigh : forall b, 3800 <= current_position b ->
                            Brake_GetPositionPercent b = 100).
  { intros b H. unfold Brake_GetPositionPercent.
    change POSITION_RELEASED with 200. change POSITION_PUSHED with 3800.
    destruct (Z.leb_spec (current_position b) 200); [lia |].
    destruct (Z.leb_spec 3800 (current_position b)); [reflexivity | lia]. }
  split; [lia |]. split; [| split; [lia |]].
  - destruct (Z_le_gt_dec (current_position b1) 200) as [H1 | H1];
      [rewrite (Hlow b1 H1); lia |].
    destruct (Z_le_gt_dec 3800 (current_position b2)) as [H2 | H2];
      [rewrite (Hhigh b2 H2); lia |].
    rewrite !GetPositionPercent_middle by lia.
    apply Z.div_le_mono; lia.
  - split; [apply Hlow |]. split; [apply Hhigh |].
    apply GetPositionPercent_middle.
Qed.

Lemma position_percent_monotone_witness :
  Brake_GetPositionPercent Scenario.at_rest
    <= Brake_GetPositionPercent Scenario.half_way.
Proof.
  assert (H : current_position Scenario.at_rest <= current_position Scenario.half_way)
    by (vm_compute; discriminate).
  exact (proj1 (proj2 (position_percent_monotone Scenario.at_rest Scenario.half_way H))).
Defined.

(** *** Start-up *)

(** X14. [Brake_Init] takes its first reading without a validity test: the
    state is PUSHED for a reading of 3700 or more, also above the valid
    range, and RELEASED otherwise, also below the valid range or when the
    conversion times out (the position is then 0).  In every case the
    error counter is 0, the fault signal is off, the motor is stopped and
    the estimate is the default. *)
Theorem Init_outcome (b : Brake) (adc : option Z) :
  current_position (Brake_Init b adc) = match adc with Some v => u16 v | None => 0 end /\
  state (Brake_Init b adc) =
    (if 3700 <=? current_position (Brake_Init b adc)
     then BRAKE_STATE_PUSHED else BRAKE_STATE_RELEASED) /\
  target_position (Brake_Init b adc) =
    (if 3700 <=? current_position (Brake_Init b adc)
     then POSITION_PUSHED else POSITION_RELEASED) /\
  position_error_count (Brake_Init b adc) = 0 /\
  Brake_HasError (Brake_Init b adc) = false /\
  motor_stopped (Brake_Init b adc) /\
  operation_start_tick (Brake_Init b adc) = 0 /\
  estimated_operation_time_ms (Brake_Init b adc) = 2000.
Proof.
  unfold Brake_Init. cbv zeta.
  match goal with |- context [classify_position ?x] => set (b0 := x) end.
  assert (Hp : current_position b0 = match adc with Some v => u16 v | None => 0 end)
    by (destruct adc; reflexivity).
  assert (Hfields : position_error_count b0 = 0 /\ motor_stopped b0 /\
                    operation_start_tick b0 = 0 /\
                    estimated_operation_time_ms b0 = 2000)
    by (repeat split; reflexivity).
  clearbody b0. destruct Hfields as (Hc & Hm & Ho & He).
  unfold classify_position, Brake_HasError, motor_stopped in *.
  change (POSITION_RELEASED + POSITION_TOLERANCE) with 300.
  change (POSITION_PUSHED - POSITION_TOLERANCE) with 3700.
  destruct (Z.leb_spec (current_position b0) 300) as [Hlo | Hlo]; simpl.
  - destruct (Z.leb_spec 3700 (current_position b0)); [lia |].
    rewrite Hc. auto 10.
  - destruct (Z.leb_spec 3700 (current_position b0)) as [Hhi | Hhi]; simpl;
      (destruct (Z.leb_spec 3700 (current_position b0)); [| try lia]);
      try lia; rewrite Hc; auto 10.
Qed.

(** *** Ranges kept by every reachable state *)

Lemma brake_wf_Init (adc : option Z) : brake_wf (Brake_Init brake_boot adc).
Proof.
  destruct (Init_outcome brake_boot adc) as (Hp & Hs & Ht & Hc & _ & (_ & Hm) & Ho & He).
  unfold brake_wf. rewrite Hp, Hc, Ho, He, Hm, Hs, Ht, Hp.
  split; [destruct adc; [apply u16_range | lia] |].
  repeat (split; [lia |]).
  match goal with |- context [3700 <=? ?x] => destruct (3700 <=? x) end;
    reflexivity.
Qed.

Lemma brake_wf_state (b : Brake) (st : BrakeState_t) (tp : Z) :
  brake_wf b ->
  match st with
  | BRAKE_STATE_PUSHING | BRAKE_STATE_PUSHED => tp = POSITION_PUSHED
  | BRAKE_STATE_RELEASING | BRAKE_STATE_RELEASED => tp = POSITION_RELEASED
  | BRAKE_STATE_STOPPED => tp = POSITION_PUSHED \/ tp = POSITION_RELEASED
  end ->
  brake_wf (set_target_position tp (set_state st b)).
Proof.
  intros (H1 & H2 & H3 & H4 & H5 & _) Hst. unfold brake_wf. simpl. auto 10.
Qed.

Lemma brake_wf_target (b : Brake) :
  brake_wf b ->
  target_position b = POSITION_PUSHED \/ target_position b = POSITION_RELEASED.
Proof.
  intros (_ & _ & _ & _ & _ & H). destruct (state b); auto.
Qed.

Lemma brake_wf_stop (b : Brake) :
  brake_wf b -> brake_wf (Motor_Stop (set_state BRAKE_STATE_STOPPED b)).
Proof.
  intros H. pose proof (brake_wf_target b H) as Ht.
  destruct H as (H1 & H2 & H3 & H4 & H5 & _). unfold brake_wf. simpl. auto 10.
Qed.

Lemma brake_wf_classify (b : Brake) : brake_wf b -> brake_wf (classify_position b).
Proof.
  intros H. unfold classify_position.
  destruct (_ <=? _); [apply brake_wf_state; [assumption | reflexivity] |].
  destruct (_ <=? _); apply brake_wf_state; (assumption || reflexivity).
Qed.

Lemma brake_wf_UpdatePosition (b : Brake) (adc : option Z) :
  brake_wf b -> brake_wf (Brake_UpdatePosition b adc).
Proof.
  intros H. unfold Brake_UpdatePosition.
  assert (Hr : 0 <= ADC_ReadPosition b adc < 65536).
  { destruct adc; simpl; [apply u16_range | apply H]. }
  destruct (IsPositionValid _).
  - destruct H as (H1 & H2 & H3 & H4 & H5 & H6).
    unfold brake_wf. simpl. repeat (split; [assumption || lia |]). assumption.
  - assert (Hw : brake_wf (set_position_error_count (u8 (position_error_count b + 1)) b)).
    { destruct H as (H1 & H2 & H3 & H4 & H5 & H6).
      unfold brake_wf. simpl.
      split; [assumption |]. split; [apply u8_range |]. auto. }
    destruct (_ <=? _); [apply brake_wf_stop |]; exact Hw.
Qed.

Lemma brake_wf_ProcessCommand (b : Brake) (cmd tick : Z) :
  brake_wf b -> brake_wf (Brake_ProcessCommand b cmd tick).
Proof.
  intros H. pose proof H as (H1 & H2 & H3 & H4 & H5 & H6).
  pose proof (u32_range tick) as Ht.
  unfold Brake_ProcessCommand.
  destruct (_ && _); [assumption |].
  destruct (_ =? _).
  { destruct (_ && _); [| assumption].
    unfold brake_wf. simpl. unfold ESTIMATED_PUSH_TIME_MS. auto 10 with zarith. }
  destruct (_ =? _); [| assumption].
  destruct (_ && _); [| assumption].
  unfold brake_wf. simpl. unfold ESTIMATED_RELEASE_TIME_MS. auto 10 with zarith.
Qed.

Lemma brake_wf_estimate (b : Brake) (e : Z) :
  brake_wf b -> 0 <= e < 4294967296 ->
  brake_wf (set_estimated_operation_time_ms e b).
Proof.
  intros (H1 & H2 & H3 & H4 & H5 & H6) He. unfold brake_wf. simpl. auto 10.
Qed.

Lemma brake_wf_UpdateOperationEstimate (b : Brake) (tick : Z) :
  brake_wf b -> brake_wf (UpdateOperationEstimate b tick).
Proof.
  intros H. unfold UpdateOperationEstimate.
  assert (H0 : brake_wf (set_estimated_operation_time_ms 0 b))
    by (apply brake_wf_estimate; [assumption | lia]).
  assert (H2000 : brake_wf (set_estimated_operation_time_ms 2000 b))
    by (apply brake_wf_estimate; [assumption | lia]).
  destruct (state b); simpl; try assumption;
    (destruct (0 <? elapsed_since b tick); [| assumption]);
    match goal with |- context [if ?c then _ else _] => destruct c end;
    try assumption; apply brake_wf_estimate; try assumption; apply u32_range.
Qed.

Lemma brake_wf_motor (b : Brake) (m : Motor) :
  brake_wf b -> motor_duty m = 0 \/ motor_duty m = 80 ->
  brake_wf (set_motor m b).
Proof.
  intros (H1 & H2 & H3 & H4 & H5 & H6) Hm. unfold brake_wf. simpl. auto 10.
Qed.

Lemma brake_wf_Update (b : Brake) (tick : Z) :
  brake_wf b -> brake_wf (Brake_Update b tick).
Proof.
  intros H. unfold Brake_Update.
  destruct (_ && _); [apply brake_wf_stop, H |].
  pose proof (brake_wf_UpdateOperationEstimate b tick H) as He.
  assert (Hstop : forall x, brake_wf x ->
            brake_wf (set_estimated_operation_time_ms 0 (Motor_Stop x))).
  { intros x Hx. apply brake_wf_estimate; [| lia].
    unfold Motor_Stop, Motor_SetPWM. simpl.
    apply brake_wf_motor; [| left; reflexivity].
    apply brake_wf_motor; [assumption | left; reflexivity]. }
  destruct (state b) eqn:Hs; try (apply Hstop, H).
  - destruct (_ <=? _).
    + unfold Motor_Stop, Motor_SetPWM. simpl.
      apply brake_wf_motor; [| left; reflexivity].
      apply brake_wf_motor; [| left; reflexivity].
      assert (Hst : state (UpdateOperationEstimate b tick) = BRAKE_STATE_RELEASING).
      { destruct (UpdateOperationEstimate_frame b tick) as (e & ->). exact Hs. }
      destruct He as (H1 & H2 & H3 & H4 & H5 & H6). rewrite Hst in H6.
      unfold brake_wf. simpl. auto 10.
    + unfold Motor_SetPWM, Motor_SetDirection. simpl.
      apply brake_wf_motor; [| right; reflexivity].
      apply brake_wf_motor; [assumption |]. apply He.
  - destruct (_ <=? _).
    + unfold Motor_Stop, Motor_SetPWM. simpl.
      apply brake_wf_motor; [| left; reflexivity].
      apply brake_wf_motor; [| left; reflexivity].
      assert (Hst : state (UpdateOperationEstimate b tick) = BRAKE_STATE_PUSHING).
      { destruct (UpdateOperationEstimate_frame b tick) as (e & ->). exact Hs. }
      destruct He as (H1 & H2 & H3 & H4 & H5 & H6). rewrite Hst in H6.
      unfold brake_wf. simpl. auto 10.
    + unfold Motor_SetPWM, Motor_SetDirection. simpl.
      apply brake_wf_motor; [| right; reflexivity].
      apply brake_wf_motor; [assumption |]. apply He.
Qed.

Lemma brake_wf_step (b : Brake) (e : brake_event) :
  brake_wf b -> brake_wf (brake_step b e).
Proof.
  intros H. destruct e as [adc | cmd tick | tick | | adc]; simpl.
  - apply brake_wf_UpdatePosition, H.
  - apply brake_wf_ProcessCommand, H.
  - apply brake_wf_Update, H.
  - pose proof (brake_wf_stop b H) as Hs.
    destruct Hs as (H1 & H2 & H3 & H4 & H5 & H6). unfold brake_wf. simpl. auto 10.
  - unfold Brake_ClearError.
    assert (Hw : brake_wf (Brake_UpdatePosition (set_position_error_count 0 b) adc)).
    { apply brake_wf_UpdatePosition.
      destruct H as (H1 & H2 & H3 & H4 & H5 & H6). unfold brake_wf. simpl.
      repeat (split; [assumption || lia |]). assumption. }
    destruct (IsPositionValid _); simpl; [apply brake_wf_classify |]; exact Hw.
Qed.

(** X15. Every state the firmware can reach, from [Brake_Init] through any
    sequence of position updates, commands, state-machine updates,
    emergency stops and recovery calls, keeps the stored values within
    their C types, drives the motor at 0 or 80 percent only, and pairs
    PUSHING and PUSHED with the target 3800 and RELEASING and RELEASED
    with the target 200. *)
Theorem reachable_is_wf (b : Brake) : reachable b -> brake_wf b.
Proof.
  induction 1 as [adc | b e Hr IH].
  - apply brake_wf_Init.
  - apply brake_wf_step, IH.
Qed.

Lemma reachable_is_wf_witness :
  motor_duty (motor Scenario.slow_push) = 0 \/
  motor_duty (motor Scenario.slow_push) = 80.
Proof.
  assert (H : reachable Scenario.slow_push).
  { change Scenario.slow_push
      with (brake_step (brake_step (brake_step Scenario.at_rest
              (EvCommand Scenario.PUSH 0)) (EvUpdatePosition (Some 220)))
              (EvUpdate 2000)).
    do 3 apply reach_step. apply reach_init. }
  exact (proj1 (proj2 (proj2 (proj2 (proj2 (reachable_is_wf Scenario.slow_push H)))))).
Defined.

(** *** The estimate during an operation *)

Lemma Update_in_time (b : Brake) (tick : Z) :
  elapsed_since b tick <= 5000 ->
  (state b = BRAKE_STATE_PUSHING -> current_position b < 3700 ->
   Brake_Update b tick =
     Motor_SetPWM MOTOR_DUTY_PUSH
       (Motor_SetDirection true (UpdateOperationEstimate b tick))) /\
  (state b = BRAKE_STATE_RELEASING -> 300 < current_position b ->
   Brake_Update b tick =
     Motor_SetPWM MOTOR_DUTY_RELEASE
       (Motor_SetDirection false (UpdateOperationEstimate b tick))).
Proof.
  intros He. unfold Brake_Update.
  change POSITION_TIMEOUT_MS with 5000.
  change (POSITION_PUSHED - POSITION_TOLERANCE) with 3700.
  change (POSITION_RELEASED + POSITION_TOLERANCE) with 300.
  destruct (Z.ltb_spec 5000 (elapsed_since b tick)); [lia |].
  rewrite andb_false_r.
  split; intros Hs Hp; rewrite Hs.
  - destruct (Z.leb_spec 3700 (current_position b)); [lia | reflexivity].
  - destruct (Z.leb_spec (current_position b) 300); [lia | reflexivity].
Qed.

(** X16. While RELEASING from anywhere at or below the pushed reference
    3800, the distance the code counts as covered is never positive, so
    every update within the time limit stores the default estimate 2000:
    the time to end reported during a release is max(0, 2000 - elapsed),
    whatever the position. *)
Theorem releasing_estimate_is_default (b : Brake) (tick : Z) :
  state b = BRAKE_STATE_RELEASING ->
  300 < current_position b <= 3800 ->
  0 < elapsed_since b tick <= 5000 ->
  state (Brake_Update b tick) = BRAKE_STATE_RELEASING /\
  estimated_operation_time_ms (Brake_Update b tick) = 2000 /\
  Brake_GetTimeToEnd (Brake_Update b tick) tick
    = Z.max 0 (2000 - elapsed_since b tick).
Proof.
  intros Hs Hp He.
  destruct (Update_in_time b tick) as [_ Hu]; [lia |].
  rewrite Hu by (assumption || lia).
  assert (Hest : estimated_operation_time_ms (UpdateOperationEstimate b tick) = 2000).
  { apply UpdateOperationEstimate_no_progress.
    - unfold in_transit. rewrite Hs. reflexivity.
    - unfold distance_covered, operation_span. rewrite Hs.
      unfold POSITION_PUSHED, POSITION_RELEASED. lia.
    - left. lia. }
  destruct (UpdateOperationEstimate_frame b tick) as (e & Hf).
  rewrite Hf in *. simpl in Hest. subst e.
  split; [exact Hs |]. split; [reflexivity |].
  unfold Brake_GetTimeToEnd. simpl. rewrite Hs. simpl.
  change (elapsed_since _ tick) with (elapsed_since b tick).
  destruct (Z.ltb_spec (elapsed_since b tick) 2000).
  - rewrite u16_small by lia. lia.
  - lia.
Qed.

Lemma releasing_estimate_is_default_witness :
  Brake_GetTimeToEnd
    (Brake_Update (Brake_ProcessCommand Scenario.half_way Scenario.RELEASE 1000) 1500)
    1500 = Z.max 0 (2000 - 500).
Proof.
  refine (proj2 (proj2 (releasing_estimate_is_default
            (Brake_ProcessCommand Scenario.half_way Scenario.RELEASE 1000) 1500
            eq_refl _ _)));
    vm_compute; (split; [reflexivity | discriminate]).
Defined.

(** X17. While PUSHING, as soon as the actuator has covered more ADC
    counts than milliseconds have passed, the quotient elapsed / covered
    is 0 and the update stores the estimate 0: the time to end reported
    is 0 although the state is still PUSHING. *)
Theorem pushing_estimate_collapses (b : Brake) (tick : Z) :
  state b = BRAKE_STATE_PUSHING ->
  200 < current_position b < 3700 ->
  0 < elapsed_since b tick < current_position b - 200 ->
  state (Brake_Update b tick) = BRAKE_STATE_PUSHING /\
  estimated_operation_time_ms (Brake_Update b tick) = 0 /\
  Brake_GetTimeToEnd (Brake_Update b tick) tick = 0.
Proof.
  intros Hs Hp He.
  destruct (Update_in_time b tick) as [Hu _]; [lia |].
  rewrite Hu by (assumption || lia).
  assert (Hcov : distance_covered b = current_position b - 200).
  { unfold distance_covered, operation_span. rewrite Hs.
    unfold POSITION_PUSHED, POSITION_RELEASED. lia. }
  assert (Hest : estimated_operation_time_ms (UpdateOperationEstimate b tick) = 0).
  { rewrite UpdateOperationEstimate_progress.
    - rewrite Hcov, (u32_small (current_position b - 200)) by lia.
      rewrite Z.div_small by lia. reflexivity.
    - unfold in_transit. rewrite Hs. reflexivity.
    - lia.
    - lia. }
  destruct (UpdateOperationEstimate_frame b tick) as (e & Hf).
  rewrite Hf in *. simpl in Hest. subst e.
  split; [exact Hs |]. split; [reflexivity |].
  unfold Brake_GetTimeToEnd. simpl. rewrite Hs. simpl.
  change (elapsed_since _ tick) with (elapsed_since b tick).
  destruct (Z.ltb_spec (elapsed_since b tick) 0); [lia | reflexivity].
Qed.

Lemma pushing_estimate_collapses_witness :
  Brake_GetTimeToEnd (Brake_Update Scenario.half_way 1000) 1000 = 0.
Proof.
  refine (proj2 (proj2 (pushing_estimate_collapses Scenario.half_way 1000
            eq_refl _ _)));
    vm_compute; split; reflexivity.
Defined.

End BrakeMore.

(** * Further properties of the controller *)

Module ControllerMore.

Import Can Brake Controller Loop CanFacts BrakeFacts ControllerFacts.

(** *** Telemetry *)

(** X18. The four state flags of a telemetry frame are 0 or 1 and mirror
    the actuator state: exactly one is set in RELEASING, RELEASED, PUSHING
    and PUSHED, and none in STOPPED; the time field is what
    [Brake_GetTimeToEnd] returns, hence 0 outside PUSHING and
    RELEASING. *)
Theorem telemetry_flags_exclusive (c : Controller) (b : Brake) (tick : Z) :
  tm_brake_releasing (telemetry_of c b tick)
  + tm_brake_released (telemetry_of c b tick)
  + tm_brake_pushing (telemetry_of c b tick)
  + tm_brake_pushed (telemetry_of c b tick)
    = (if BrakeState_eqb (Brake.state b) BRAKE_STATE_STOPPED then 0 else 1) /\
  (tm_brake_releasing (telemetry_of c b tick) = 1 <->
     Brake.state b = BRAKE_STATE_RELEASING) /\
  (tm_brake_released (telemetry_of c b tick) = 1 <->
     Brake.state b = BRAKE_STATE_RELEASED) /\
  (tm_brake_pushing (telemetry_of c b tick) = 1 <->
     Brake.state b = BRAKE_STATE_PUSHING) /\
  (tm_brake_pushed (telemetry_of c b tick) = 1 <->
     Brake.state b = BRAKE_STATE_PUSHED) /\
  0 <= tm_time_to_end_operation (telemetry_of c b tick) < 65536 /\
  (tm_brake_releasing (telemetry_of c b tick)
   + tm_brake_pushing (telemetry_of c b tick) = 0 ->
   tm_time_to_end_operation (telemetry_of c b tick) = 0).
Proof.
  unfold telemetry_of, Brake_GetTimeToEnd. simpl.
  destruct (Brake.state b); simpl;
    repeat split; try discriminate; try reflexivity; try lia;
    try (intros; discriminate);
    destruct (_ <? _); try apply u16_range; lia.
Qed.

Lemma telemetry_flags_exclusive_witness :
  tm_time_to_end_operation
    (telemetry_of controller_boot Scenario.after_emergency_stop 7) = 0.
Proof.
  exact (proj2 (proj2 (proj2 (proj2 (proj2 (proj2
    (telemetry_flags_exclusive controller_boot Scenario.after_emergency_stop 7))))))
    eq_refl).
Defined.

(** *** Heartbeat transmission *)

(** X19. [SendHeartbeat] advances the heartbeat counter by one (modulo
    2^32) on every call, also when the TX buffer is full: the frame is
    then dropped, the driver is left as it was, and the next heartbeat
    skips a counter value on the bus.  Health, the stored node id, the
    actuator and the RX buffer are never touched. *)
Theorem heartbeat_counter_advances (s : System) (tick : Z) :
  heartbeat_msg_count (ctrl (SendHeartbeat s tick))
    = u32 (heartbeat_msg_count (ctrl s) + 1) /\
  hb_msg_count (heartbeat_of (ctrl (SendHeartbeat s tick)) tick)
    = u32 (hb_msg_count (heartbeat_of (ctrl s) tick) + 1) /\
  node_health (ctrl (SendHeartbeat s tick)) = node_health (ctrl s) /\
  node_id (ctrl (SendHeartbeat s tick)) = node_id (ctrl s) /\
  brake (SendHeartbeat s tick) = brake s /\
  can_rx_buffer (can (SendHeartbeat s tick)) = can_rx_buffer (can s) /\
  (count (can_tx_buffer (can s)) = 8 -> can (SendHeartbeat s tick) = can s).
Proof.
  rewrite !SendHeartbeat_unfold. simpl.
  do 6 (split; [reflexivity |]).
  intros Hfull. rewrite Put_full by lia. destruct (can s); reflexivity.
Qed.

Lemma heartbeat_counter_advances_witness :
  can (SendHeartbeat (mkSystem controller_boot Scenario.at_rest full_tx) 60)
    = full_tx.
Proof.
  exact (proj2 (proj2 (proj2 (proj2 (proj2 (proj2
    (heartbeat_counter_advances
       (mkSystem controller_boot Scenario.at_rest full_tx) 60))))))
    eq_refl).
Defined.

(** *** Dispatch of received frames *)

(** X20. The dispatcher acts on two identifiers only: a frame with any
    other identifier changes nothing.  A heartbeat whose origin is not
    the PC (0x10), the controller's own 0xF0 included, changes nothing.
    No frame changes the driver; a heartbeat frame never changes the
    actuator, and a frame that is not a heartbeat never changes the
    controller. *)
Theorem dispatch_ignores (s : System) (msg : CAN_Message_t) (tick : Z) :
  (Can.id msg <> AUTOMATE_HEART_BEAT_MSG_FRAME_ID ->
   Can.id msg <> AUTOMATE_LEFT_BRAKE_CMD_FRAME_ID ->
   Dispatch s msg tick = s) /\
  can (Dispatch s msg tick) = can s /\
  (Can.id msg = AUTOMATE_HEART_BEAT_MSG_FRAME_ID ->
   brake (Dispatch s msg tick) = brake s) /\
  (Can.id msg <> AUTOMATE_HEART_BEAT_MSG_FRAME_ID ->
   ctrl (Dispatch s msg tick) = ctrl s) /\
  (forall hb, hb_node_id hb <> NODE_ID_PC ->
   ProcessHeartbeat (ctrl s) hb tick = ctrl s).
Proof.
  split; [| split; [apply can_Dispatch |]].
  - intros Hh Hc. unfold Dispatch.
    destruct (Z.eqb_spec (Can.id msg) AUTOMATE_HEART_BEAT_MSG_FRAME_ID);
      [contradiction |].
    destruct (Z.eqb_spec (Can.id msg) AUTOMATE_LEFT_BRAKE_CMD_FRAME_ID);
      [contradiction | reflexivity].
  - split; [| split].
    + intros Hh. unfold Dispatch. rewrite Hh, Z.eqb_refl.
      destruct (automate_heart_beat_msg_unpack _ _); reflexivity.
    + intros Hh. unfold Dispatch.
      destruct (Z.eqb_spec (Can.id msg) AUTOMATE_HEART_BEAT_MSG_FRAME_ID);
        [contradiction |].
      destruct (_ =? _); [| reflexivity].
      destruct (automate_left_brake_cmd_unpack _ _); [| reflexivity].
      destruct (automate_left_brake_cmd_brake_state_is_in_range _); reflexivity.
    + intros hb Hn. unfold ProcessHeartbeat.
      destruct (Z.eqb_spec (hb_node_id hb) NODE_ID_PC); [contradiction | reflexivity].
Qed.

Lemma dispatch_ignores_witness :
  Dispatch (mkSystem controller_boot Scenario.at_rest CAN_Driver_Init)
    (mkMsg 291 [0; 0; 0; 0; 1; 0; 0; 0] 8 true) 40
  = mkSystem controller_boot Scenario.at_rest CAN_Driver_Init.
Proof.
  refine (proj1 (dispatch_ignores
            (mkSystem controller_boot Scenario.at_rest CAN_Driver_Init)
            (mkMsg 291 [0; 0; 0; 0; 1; 0; 0; 0] 8 true) 40) _ _);
    vm_compute; discriminate.
Defined.

(** *** Health evaluation *)

Lemma UpdateSystemHealth_frame (c : Controller) (b : Brake) (tick : Z) :
  UpdateSystemHealth c b tick
    = set_node_health (node_health (UpdateSystemHealth c b tick)) c.
Proof.
  assert (Hid : c = set_node_health (node_health c) c) by (destruct c; reflexivity).
  unfold UpdateSystemHealth.
  destruct (Brake_HasError b); health_cases;
    repeat match goal with
    | |- context [if ?x then _ else _] => destruct x; simpl
    end; try reflexivity; exact Hid.
Qed.

(** X21. Boot grace.  While health is INIT and no actuator fault is
    pending, an evaluation at a tick up to 1000 leaves INIT and an
    evaluation at a later tick gives ON, whether or not the PC has been
    heard and however old its last heartbeat is: the watchdog does not
    act on INIT. *)
Theorem boot_grace_is_strict (c : Controller) (b : Brake) (tick : Z) :
  node_health c = AUTOMATE_HEART_BEAT_MSG_HEALTH_INIT_CHOICE ->
  Brake_HasError b = false ->
  node_health (UpdateSystemHealth c b tick) =
    if 1000 <? u32 tick
    then AUTOMATE_HEART_BEAT_MSG_HEALTH_ON_CHOICE
    else AUTOMATE_HEART_BEAT_MSG_HEALTH_INIT_CHOICE.
Proof.
  intros Hi He. unfold UpdateSystemHealth. rewrite He.
  unfold AUTOMATE_HEART_BEAT_MSG_HEALTH_INIT_CHOICE,
    AUTOMATE_HEART_BEAT_MSG_HEALTH_ON_CHOICE,
    AUTOMATE_HEART_BEAT_MSG_HEALTH_WARNING_CHOICE in *.
  destruct (pc_heartbeat_received c); [destruct (_ <? _) |];
    repeat (rewrite Hi; simpl);
    destruct (1000 <? u32 tick); simpl; auto.
Qed.

Lemma boot_grace_is_strict_witness :
  node_health (UpdateSystemHealth controller_boot Scenario.at_rest 1000)
    = AUTOMATE_HEART_BEAT_MSG_HEALTH_INIT_CHOICE /\
  node_health (UpdateSystemHealth controller_boot Scenario.at_rest 1001)
    = AUTOMATE_HEART_BEAT_MSG_HEALTH_ON_CHOICE.
Proof.
  split.
  - exact (boot_grace_is_strict controller_boot Scenario.at_rest 1000 eq_refl eq_refl).
  - exact (boot_grace_is_strict controller_boot Scenario.at_rest 1001 eq_refl eq_refl).
Defined.

(** X22. The watchdog is armed by the first PC heartbeat.  As long as none
    has been received and no actuator fault is pending, an evaluation at
    any tick leaves a controller that is past INIT unchanged: ON never
    degrades to WARNING, and a WARNING set by hand is not cleared. *)
Theorem watchdog_unarmed (c : Controller) (b : Brake) (tick : Z) :
  pc_heartbeat_received c = false ->
  Brake_HasError b = false ->
  node_health c <> AUTOMATE_HEART_BEAT_MSG_HEALTH_INIT_CHOICE ->
  UpdateSystemHealth c b tick = c.
Proof.
  intros Hr He Hi. unfold UpdateSystemHealth. rewrite Hr, He.
  destruct (Z.eqb_spec (node_health c) AUTOMATE_HEART_BEAT_MSG_HEALTH_INIT_CHOICE);
    [contradiction | reflexivity].
Qed.

Lemma watchdog_unarmed_witness :
  UpdateSystemHealth
    (Controller_SetHealth controller_boot AUTOMATE_HEART_BEAT_MSG_HEALTH_ON_CHOICE)
    Scenario.at_rest 90000
  = Controller_SetHealth controller_boot AUTOMATE_HEART_BEAT_MSG_HEALTH_ON_CHOICE.
Proof.
  apply watchdog_unarmed; [reflexivity | reflexivity |].
  vm_compute. discriminate.
Defined.

(** X23. [UpdateSystemHealth] changes nothing but the health value.  FAILURE
    (4) and CRITICAL_FAILURE (5) are fixed: a controller with either is
    returned unchanged, fault or not.  Without the fault signal the
    result is FAILURE only if health was FAILURE before, and in every
    case the result is the old value, ON, WARNING or FAILURE. *)
Theorem health_outcomes (c : Controller) (b : Brake) (tick : Z) :
  UpdateSystemHealth c b tick
    = set_node_health (node_health (UpdateSystemHealth c b tick)) c /\
  (AUTOMATE_HEART_BEAT_MSG_HEALTH_FAILURE_CHOICE <= node_health c ->
   UpdateSystemHealth c b tick = c) /\
  (Brake_HasError b = false ->
   node_health (UpdateSystemHealth c b tick)
     = AUTOMATE_HEART_BEAT_MSG_HEALTH_FAILURE_CHOICE ->
   node_health c = AUTOMATE_HEART_BEAT_MSG_HEALTH_FAILURE_CHOICE) /\
  (node_health (UpdateSystemHealth c b tick) = node_health c \/
   node_health (UpdateSystemHealth c b tick) = AUTOMATE_HEART_BEAT_MSG_HEALTH_ON_CHOICE \/
   node_health (UpdateSystemHealth c b tick) = AUTOMATE_HEART_BEAT_MSG_HEALTH_WARNING_CHOICE \/
   node_health (UpdateSystemHealth c b tick) = AUTOMATE_HEART_BEAT_MSG_HEALTH_FAILURE_CHOICE).
Proof.
  split; [apply UpdateSystemHealth_frame |].
  unfold UpdateSystemHealth,
    AUTOMATE_HEART_BEAT_MSG_HEALTH_ON_CHOICE,
    AUTOMATE_HEART_BEAT_MSG_HEALTH_WARNING_CHOICE,
    AUTOMATE_HEART_BEAT_MSG_HEALTH_INIT_CHOICE,
    AUTOMATE_HEART_BEAT_MSG_HEALTH_FAILURE_CHOICE.
  split; [| split].
  - intros Hf. destruct (Brake_HasError b); health_cases; reflexivity.
  - intros He. rewrite He. health_cases.
  - destruct (Brake_HasError b); health_cases; auto.
Qed.

Lemma health_outcomes_witness :
  UpdateSystemHealth (Controller_SetHealth Scenario.watching 5)
    Scenario.after_sensor_fault 900
  = Controller_SetHealth Scenario.watching 5.
Proof.
  refine (proj1 (proj2 (health_outcomes (Controller_SetHealth Scenario.watching 5)
            Scenario.after_sensor_fault 900)) _).
  vm_compute. discriminate.
Defined.

Lemma UpdateSystemHealth_no_fault (c : Controller) (b : Brake) (tick : Z) :
  Brake_HasError b = false ->
  node_health c <> AUTOMATE_HEART_BEAT_MSG_HEALTH_FAILURE_CHOICE ->
  node_health (UpdateSystemHealth c b tick)
    <> AUTOMATE_HEART_BEAT_MSG_HEALTH_FAILURE_CHOICE.
Proof.
  unfold UpdateSystemHealth,
    AUTOMATE_HEART_BEAT_MSG_HEALTH_ON_CHOICE,
    AUTOMATE_HEART_BEAT_MSG_HEALTH_WARNING_CHOICE,
    AUTOMATE_HEART_BEAT_MSG_HEALTH_INIT_CHOICE,
    AUTOMATE_HEART_BEAT_MSG_HEALTH_FAILURE_CHOICE.
  intros He Hn. rewrite He. health_cases.
Qed.

Lemma UpdateSystemHealth_brake (c : Controller) (b b' : Brake) (tick : Z) :
  Brake_HasError b' = Brake_HasError b ->
  UpdateSystemHealth c b' tick = UpdateSystemHealth c b tick.
Proof. intros H. unfold UpdateSystemHealth. rewrite H. reflexivity. Qed.

(** X24. Neither an operation timeout nor an emergency stop nor a command
    raises the fault signal: [Brake_HasError] is the same before and
    after [Brake_Update], [Brake_EmergencyStop] and
    [Brake_ProcessCommand], so health is evaluated as without them.  An
    operation that times out with no sensor fault pending ends in
    STOPPED while health does not become FAILURE. *)
Theorem stop_without_fault_signal (c : Controller) (b : Brake) (cmd t t' : Z) :
  Brake_HasError (Brake_Update b t) = Brake_HasError b /\
  Brake_HasError (Brake_EmergencyStop b) = Brake_HasError b /\
  Brake_HasError (Brake_ProcessCommand b cmd t) = Brake_HasError b /\
  UpdateSystemHealth c (Brake_Update b t) t' = UpdateSystemHealth c b t' /\
  UpdateSystemHealth c (Brake_EmergencyStop b) t' = UpdateSystemHealth c b t' /\
  (Spec.in_transit b = true -> 5000 < elapsed_since b t ->
   Brake_HasError b = false ->
   node_health c <> AUTOMATE_HEART_BEAT_MSG_HEALTH_FAILURE_CHOICE ->
   Brake.state (Brake_Update b t) = BRAKE_STATE_STOPPED /\
   node_health (UpdateSystemHealth c (Brake_Update b t) t')
     <> AUTOMATE_HEART_BEAT_MSG_HEALTH_FAILURE_CHOICE).
Proof.
  assert (Hu : Brake_HasError (Brake_Update b t) = Brake_HasError b).
  { unfold Brake_HasError, Brake_Update.
    destruct (BrakeMore.UpdateOperationEstimate_frame b t) as (e & ->).
    destruct (Brake.state b); simpl;
      repeat match goal with
      | |- context [if ?x then _ else _] => destruct x; simpl
      end; reflexivity. }
  assert (Hc : Brake_HasError (Brake_ProcessCommand b cmd t) = Brake_HasError b).
  { unfold Brake_HasError, Brake_ProcessCommand.
    repeat match goal with
    | |- context [if ?x then _ else _] => destruct x; simpl
    end; reflexivity. }
  split; [exact Hu |]. split; [reflexivity |]. split; [exact Hc |].
  split; [apply UpdateSystemHealth_brake, Hu |].
  split; [apply UpdateSystemHealth_brake; reflexivity |].
  intros Ht Hel He Hn. split.
  - unfold Brake_Update, Spec.in_transit in *. rewrite Ht.
    change POSITION_TIMEOUT_MS with 5000.
    destruct (Z.ltb_spec 5000 (elapsed_since b t)); [reflexivity | lia].
  - apply UpdateSystemHealth_no_fault; [rewrite Hu; exact He | exact Hn].
Qed.

Lemma stop_without_fault_signal_witness :
  Brake.state (Brake_Update Scenario.pushing 5001) = BRAKE_STATE_STOPPED /\
  node_health (UpdateSystemHealth Scenario.watching
                 (Brake_Update Scenario.pushing 5001) 5001)
    <> AUTOMATE_HEART_BEAT_MSG_HEALTH_FAILURE_CHOICE.
Proof.
  refine (proj2 (proj2 (proj2 (proj2 (proj2
            (stop_without_fault_signal Scenario.watching Scenario.pushing 0 5001 5001)))))
            eq_refl _ eq_refl _);
    vm_compute; (reflexivity || discriminate).
Defined.

(** *** The status LED *)

Lemma UpdateStatusLED_blink (c : Controller) (b : Brake) (tick period : Z) :
  blink_period b = Some period ->
  UpdateStatusLED c b tick =
    if period <=? u32 (u32 tick - last_led_toggle_tick c)
    then set_led (negb (led_state c)) (negb (led_state c)) (u32 tick) c
    else c.
Proof.
  unfold blink_period, UpdateStatusLED.
  destruct (Brake.state b); intros H; inversion H; reflexivity.
Qed.

(** X25. The status LED.  In RELEASED the LED is switched off and in
    PUSHED on.  In PUSHING and RELEASING (period 500) and in STOPPED
    (period 125) the LED toggles when at least one period has passed
    since the last toggle, and then no call within the following period
    toggles it again; before that the call changes nothing.  The pin
    level equals the stored LED state whenever it did before the call,
    and nothing but the three LED fields is changed. *)
Theorem led_follows_state (c : Controller) (b : Brake) (tick : Z) :
  (Brake.state b = BRAKE_STATE_RELEASED ->
   led_pin (UpdateStatusLED c b tick) = false /\
   led_state (UpdateStatusLED c b tick) = false) /\
  (Brake.state b = BRAKE_STATE_PUSHED ->
   led_pin (UpdateStatusLED c b tick) = true /\
   led_state (UpdateStatusLED c b tick) = true) /\
  (forall period, blink_period b = Some period ->
   (period <= u32 (u32 tick - last_led_toggle_tick c) ->
    led_pin (UpdateStatusLED c b tick) = negb (led_state c) /\
    led_state (UpdateStatusLED c b tick) = negb (led_state c) /\
    forall tick', u32 (u32 tick' - u32 tick) < period ->
      UpdateStatusLED (UpdateStatusLED c b tick) b tick' = UpdateStatusLED c b tick) /\
   (u32 (u32 tick - last_led_toggle_tick c) < period ->
    UpdateStatusLED c b tick = c)) /\
  (led_pin c = led_state c ->
   led_pin (UpdateStatusLED c b tick) = led_state (UpdateStatusLED c b tick)) /\
  UpdateStatusLED c b tick =
    set_led (led_state (UpdateStatusLED c b tick))
            (led_pin (UpdateStatusLED c b tick))
            (last_led_toggle_tick (UpdateStatusLED c b tick)) c.
Proof.
  split; [intros Hs; unfold UpdateStatusLED; rewrite Hs; auto |].
  split; [intros Hs; unfold UpdateStatusLED; rewrite Hs; auto |].
  split.
  - intros period Hp. rewrite (UpdateStatusLED_blink c b tick period Hp).
    split.
    + intros Hdue.
      destruct (Z.leb_spec period (u32 (u32 tick - last_led_toggle_tick c)));
        [| lia].
      split; [reflexivity |]. split; [reflexivity |].
      intros tick' Hsoon.
      rewrite (UpdateStatusLED_blink _ b tick' period Hp). simpl.
      destruct (Z.leb_spec period (u32 (u32 tick' - u32 tick))); [lia | reflexivity].
    + intros Hnot.
      destruct (Z.leb_spec period (u32 (u32 tick - last_led_toggle_tick c)));
        [lia | reflexivity].
  - assert (Hid : c = set_led (led_state c) (led_pin c) (last_led_toggle_tick c) c)
      by (destruct c; reflexivity).
    unfold UpdateStatusLED.
    destruct (Brake.state b); simpl;
      repeat match goal with
      | |- context [if ?x then _ else _] => destruct x; simpl
      end; auto.
Qed.

Lemma led_follows_state_witness :
  led_pin (UpdateStatusLED controller_boot Scenario.at_rest 10) = false.
Proof.
  exact (proj1 (proj1 (led_follows_state controller_boot Scenario.at_rest 10) eq_refl)).
Defined.

(** *** Draining the RX queue *)

Lemma Dispatch_driver_free (c : Controller) (b : Brake) (d d' : Driver)
    (msg : CAN_Message_t) (tick : Z) :
  ctrl (Dispatch (mkSystem c b d) msg tick) = ctrl (Dispatch (mkSystem c b d') msg tick) /\
  brake (Dispatch (mkSystem c b d) msg tick) = brake (Dispatch (mkSystem c b d') msg tick).
Proof.
  unfold Dispatch. simpl.
  destruct (_ =? _).
  { destruct (automate_heart_beat_msg_unpack _ _); auto. }
  destruct (_ =? _); [| auto].
  destruct (automate_left_brake_cmd_unpack _ _); [| auto].
  destruct (automate_left_brake_cmd_brake_state_is_in_range _); auto.
Qed.

Lemma dispatch_all_driver_free (msgs : list CAN_Message_t) (tick : Z) :
  forall s1 s2, ctrl s1 = ctrl s2 -> brake s1 = brake s2 ->
  ctrl (dispatch_all s1 msgs tick) = ctrl (dispatch_all s2 msgs tick) /\
  brake (dispatch_all s1 msgs tick) = brake (dispatch_all s2 msgs tick).
Proof.
  unfold dispatch_all.
  induction msgs as [| msg msgs IH]; intros s1 s2 Hc Hb; simpl; [auto |].
  apply IH; destruct s1 as [c1 b1 d1], s2 as [c2 b2 d2]; simpl in *; subst;
    apply Dispatch_driver_free.
Qed.

Lemma Dispatch_schedule (s : System) (msg : CAN_Message_t) (tick : Z) :
  same_schedule (ctrl s) (ctrl (Dispatch s msg tick)).
Proof.
  unfold Dispatch, same_schedule.
  destruct (_ =? _).
  { destruct (automate_heart_beat_msg_unpack _ _) as [hb |]; simpl; [| auto].
    unfold ProcessHeartbeat. destruct (_ =? _); simpl; auto. }
  destruct (_ =? _); [| auto].
  destruct (automate_left_brake_cmd_unpack _ _); [| auto].
  destruct (automate_left_brake_cmd_brake_state_is_in_range _); simpl; auto.
Qed.

Lemma dispatch_all_schedule (msgs : list CAN_Message_t) (tick : Z) :
  forall s, same_schedule (ctrl s) (ctrl (dispatch_all s msgs tick)).
Proof.
  unfold dispatch_all.
  induction msgs as [| msg msgs IH]; intros s; simpl.
  - unfold same_schedule. auto.
  - destruct (Dispatch_schedule s msg tick) as (H1 & H2 & H3 & H4).
    destruct (IH (Dispatch s msg tick)) as (G1 & G2 & G3 & G4).
    unfold same_schedule. rewrite G1, G2, G3, G4. auto.
Qed.

Lemma ProcessReceivedMessage_loop_spec (fuel : nat) :
  forall s tick, ring_inv (can_rx_buffer (can s)) ->
  (length (ring_contents (can_rx_buffer (can s))) < fuel)%nat ->
  exists s', ProcessReceivedMessage_loop fuel s tick = Some s' /\
    ctrl s' = ctrl (dispatch_all s (ring_contents (can_rx_buffer (can s))) tick) /\
    brake s' = brake (dispatch_all s (ring_contents (can_rx_buffer (can s))) tick) /\
    ring_inv (can_rx_buffer (can s')) /\
    ring_contents (can_rx_buffer (can s')) = [] /\
    can_tx_buffer (can s') = can_tx_buffer (can s).
Proof.
  induction fuel as [| fuel IH]; intros s tick Hinv Hfuel; [lia |].
  simpl. unfold CAN_Driver_Get. change CAN_RX_BUFFER_SIZE with 8.
  destruct (CanMore.Get_cases _ Hinv)
    as [[Hnil Hget] | (msg & rx' & Hget & Hcont & Hinv' & _)];
    rewrite Hget.
  - exists s. rewrite Hnil. simpl. auto 10.
  - rewrite Hcont in *. simpl in Hfuel.
    set (s1 := Dispatch (mkSystem (ctrl s) (brake s)
                           (mkDriver rx' (can_tx_buffer (can s)))) msg tick).
    assert (Hcan : can s1 = mkDriver rx' (can_tx_buffer (can s)))
      by apply can_Dispatch.
    destruct (IH s1 tick) as (s' & Hrun & Hc & Hb & Hi & He & Ht).
    { rewrite Hcan. exact Hinv'. }
    { rewrite Hcan. simpl. lia. }
    exists s'. split; [exact Hrun |].
    rewrite Hcan in *. simpl in *.
    destruct (dispatch_all_driver_free (ring_contents rx') tick s1
                (Dispatch s msg tick)) as [Ec Eb].
    { subst s1. destruct s as [c b d]. apply Dispatch_driver_free. }
    { subst s1. destruct s as [c b d]. apply Dispatch_driver_free. }
    unfold dispatch_all in *. simpl.
    rewrite Hc, Hb, Ec, Eb. auto 10.
Qed.

(** X26. [ProcessReceivedMessage] on an RX buffer that satisfies the
    invariant always returns; it dispatches every queued frame, oldest
    first, so controller and actuator end as after dispatching the queue
    front to back; it leaves the RX queue empty and the TX buffer as it
    was. *)
Theorem receive_drains_in_order (s : System) (tick : Z) :
  ring_inv (can_rx_buffer (can s)) ->
  exists s', ProcessReceivedMessage s tick = Some s' /\
    ctrl s' = ctrl (dispatch_all s (ring_contents (can_rx_buffer (can s))) tick) /\
    brake s' = brake (dispatch_all s (ring_contents (can_rx_buffer (can s))) tick) /\
    ring_inv (can_rx_buffer (can s')) /\
    ring_contents (can_rx_buffer (can s')) = [] /\
    CAN_Driver_HasMessage (can s') = false /\
    can_tx_buffer (can s') = can_tx_buffer (can s).
Proof.
  intros Hinv.
  destruct (ProcessReceivedMessage_loop_spec 257 s tick Hinv)
    as (s' & Hrun & Hc & Hb & Hi & He & Ht).
  { rewrite contents_length. destruct Hinv as (? & _). lia. }
  exists s'. split; [exact Hrun |].
  do 4 (split; [assumption |]). split; [| exact Ht].
  pose proof (contents_length (can_rx_buffer (can s'))) as Hl.
  rewrite He in Hl. simpl in Hl. destruct Hi as (Hcnt & _).
  unfold CAN_Driver_HasMessage, RingBuffer_IsEmpty.
  replace (count (can_rx_buffer (can s'))) with 0 by lia. reflexivity.
Qed.

Lemma receive_drains_in_order_witness :
  exists s',
    ProcessReceivedMessage
      (mkSystem controller_boot Scenario.at_rest
         (CAN_Driver_RxCallback CAN_Driver_Init
            (Some (AUTOMATE_LEFT_BRAKE_CMD_FRAME_ID, true, 8,
                   [1; 0; 0; 0; 1; 0; 0; 0])))) 30 = Some s' /\
    Brake.state (brake s') = BRAKE_STATE_PUSHING.
Proof.
  assert (Hi : ring_inv (can_rx_buffer (can
            (mkSystem controller_boot Scenario.at_rest
               (CAN_Driver_RxCallback CAN_Driver_Init
                  (Some (AUTOMATE_LEFT_BRAKE_CMD_FRAME_ID, true, 8,
                         [1; 0; 0; 0; 1; 0; 0; 0]))))))).
  { unfold ring_inv. vm_compute.
    repeat split; solve [reflexivity | intro; discriminate]. }
  destruct (receive_drains_in_order _ 30 Hi) as (s' & Hrun & _ & Hb & _).
  exists s'. split; [exact Hrun |]. rewrite Hb. reflexivity.
Defined.

(** *** Cadence of the business loop *)

Lemma SendTelemetry_unfold (s : System) (tick : Z) :
  SendTelemetry s tick =
    mkSystem
      (set_telemetry_msg_id (u8 (telemetry_msg_id (ctrl s) + 1)) (ctrl s))
      (brake s)
      (mkDriver (can_rx_buffer (can s))
         (snd (RingBuffer_Put (can_tx_buffer (can s))
                 (mkMsg AUTOMATE_LEFT_BRAKE_MSG_FRAME_ID
                    (snd (automate_left_brake_msg_pack
                            (telemetry_of (ctrl s) (brake s) tick) 8))
                    8 true)
                 8))).
Proof.
  unfold SendTelemetry, CAN_Driver_Send. simpl.
  change CAN_TX_BUFFER_SIZE with 8.
  destruct (RingBuffer_Put _ _ 8); reflexivity.
Qed.

Lemma UpdateStatusLED_schedule (c : Controller) (b : Brake) (tick : Z) :
  same_schedule c (UpdateStatusLED c b tick).
Proof.
  unfold same_schedule, UpdateStatusLED.
  destruct (Brake.state b); simpl;
    repeat match goal with
    | |- context [if ?x then _ else _] => destruct x; simpl
    end; auto.
Qed.

Lemma UpdateSystemHealth_schedule (c : Controller) (b : Brake) (tick : Z) :
  same_schedule c (UpdateSystemHealth c b tick).
Proof.
  rewrite UpdateSystemHealth_frame. unfold same_schedule. simpl. auto.
Qed.

(** X27. One pass of [Business_Loop] on an RX buffer that satisfies the
    invariant returns, and it numbers and schedules the outgoing frames
    by the tick alone: the heartbeat counter advances by one exactly when
    at least 50 ticks have passed since the last heartbeat, the telemetry
    counter exactly when at least 100 have passed since the last
    telemetry frame, and the tick of the pass is then recorded, so the
    next pass less than a period later sends nothing; the frames received
    in the pass do not change this. *)
Theorem loop_cadence (s : System) (tick : Z) :
  ring_inv (can_rx_buffer (can s)) ->
  exists s', Business_Loop s tick = Some s' /\
    heartbeat_msg_count (ctrl s') =
      (if heartbeat_due (ctrl s) tick
       then u32 (heartbeat_msg_count (ctrl s) + 1)
       else heartbeat_msg_count (ctrl s)) /\
    last_heartbeat_tick (ctrl s') =
      (if heartbeat_due (ctrl s) tick then u32 tick
       else last_heartbeat_tick (ctrl s)) /\
    telemetry_msg_id (ctrl s') =
      (if telemetry_due (ctrl s) tick
       then u8 (telemetry_msg_id (ctrl s) + 1)
       else telemetry_msg_id (ctrl s)) /\
    last_telemetry_tick (ctrl s') =
      (if telemetry_due (ctrl s) tick then u32 tick
       else last_telemetry_tick (ctrl s)) /\
    (heartbeat_due (ctrl s) tick = true ->
     forall tick', u32 (u32 tick' - u32 tick) < HEARTBEAT_INTERVAL_MS ->
       heartbeat_due (ctrl s') tick' = false) /\
    (telemetry_due (ctrl s) tick = true ->
     forall tick', u32 (u32 tick' - u32 tick) < TELEMETRY_INTERVAL_MS ->
       telemetry_due (ctrl s') tick' = false).
Proof.
  intros Hinv.
  destruct (ProcessReceivedMessage_loop_spec 257 s tick Hinv)
    as (s1 & Hrun & Hc & _).
  { rewrite contents_length. destruct Hinv as (? & _). lia. }
  pose proof (dispatch_all_schedule
                (ring_contents (can_rx_buffer (can s))) tick s) as Hsch.
  rewrite <- Hc in Hsch. destruct Hsch as (S1 & S2 & S3 & S4).
  unfold Business_Loop, ProcessReceivedMessage. rewrite Hrun.
  eexists. split; [reflexivity |].
  unfold heartbeat_due, telemetry_due. simpl ctrl.
  rewrite <- S1, <- S2, <- S3, <- S4.
  set (hd := HEARTBEAT_INTERVAL_MS <=? u32 (u32 tick - last_heartbeat_tick (ctrl s1))).
  set (sa := if hd then _ else s1).
  assert (Ha : heartbeat_msg_count (ctrl sa)
                 = (if hd then u32 (heartbeat_msg_count (ctrl s1) + 1)
                    else heartbeat_msg_count (ctrl s1)) /\
               last_heartbeat_tick (ctrl sa)
                 = (if hd then u32 tick else last_heartbeat_tick (ctrl s1)) /\
               telemetry_msg_id (ctrl sa) = telemetry_msg_id (ctrl s1) /\
               last_telemetry_tick (ctrl sa) = last_telemetry_tick (ctrl s1)).
  { subst sa. destruct hd; simpl; auto. }
  destruct Ha as (A1 & A2 & A3 & A4). rewrite <- A3, <- A4.
  set (td := TELEMETRY_INTERVAL_MS <=? u32 (u32 tick - last_telemetry_tick (ctrl sa))).
  set (sb := if td then _ else sa).
  assert (Hb : heartbeat_msg_count (ctrl sb) = heartbeat_msg_count (ctrl sa) /\
               last_heartbeat_tick (ctrl sb) = last_heartbeat_tick (ctrl sa) /\
               telemetry_msg_id (ctrl sb)
                 = (if td then u8 (telemetry_msg_id (ctrl sa) + 1)
                    else telemetry_msg_id (ctrl sa)) /\
               last_telemetry_tick (ctrl sb)
                 = (if td then u32 tick else last_telemetry_tick (ctrl sa))).
  { subst sb. destruct td; simpl; auto. }
  destruct Hb as (B1 & B2 & B3 & B4).
  destruct (UpdateSystemHealth_schedule (ctrl sb) (brake sb) tick)
    as (H1 & H2 & H3 & H4).
  destruct (UpdateStatusLED_schedule
              (UpdateSystemHealth (ctrl sb) (brake sb) tick) (brake sb) tick)
    as (L1 & L2 & L3 & L4).
  rewrite L1, L2, L3, L4, H1, H2, H3, H4, B1, B2, B3, B4, A1, A2.
  do 4 (split; [reflexivity |]).
  split.
  - intros ->. intros tick' Hsoon.
    destruct (Z.leb_spec HEARTBEAT_INTERVAL_MS (u32 (u32 tick' - u32 tick)));
      [lia | reflexivity].
  - intros ->. intros tick' Hsoon.
    destruct (Z.leb_spec TELEMETRY_INTERVAL_MS (u32 (u32 tick' - u32 tick)));
      [lia | reflexivity].
Qed.

Lemma loop_cadence_witness :
  exists s',
    Business_Loop (mkSystem controller_boot Scenario.at_rest CAN_Driver_Init) 50
      = Some s' /\
    heartbeat_msg_count (ctrl s') = 1.
Proof.
  assert (Hi : ring_inv (can_rx_buffer (can
            (mkSystem controller_boot Scenario.at_rest CAN_Driver_Init)))).
  { unfold ring_inv. vm_compute.
    repeat split; solve [reflexivity | intro; discriminate]. }
  destruct (loop_cadence _ 50 Hi) as (s' & Hrun & Hc & _).
  exists s'. split; [exact Hrun |]. rewrite Hc. reflexivity.
Defined.

End ControllerMore.
